(** * Motif SDK: bid-share validation, byte/URI validators, content
    verification and the read-only guard of [MotifItem]

    A shallow embedding of [src/utils.ts] (constructors, validators, hashing
    and verification helpers), of [src/MotifItem.ts] (constructor, guard,
    fetch and write methods, bid validation, item verification, EIP-712
    domain), and of the library functions
    they lean on ([@ethersproject/bytes], [tiny-invariant], [sjcl], Node's
    [Buffer], [Number.prototype.toFixed]).

    Conventions.
    - A JavaScript exception is a value [Throw message]; a promise is either
      [Resolved v] or [Rejected reason].
    - [BigNumber] is an unbounded integer ([Z]).
    - A finite JavaScript number is modelled by the rational it denotes
      ([Q]); [NaN] and the infinities are outside the model.
    - Asynchronous code is written in a small monad that threads the log of
      the outside calls (HTTP requests, contract calls) issued so far. *)

From Stdlib Require Import ZArith QArith Qround List String Ascii Bool Lia.
From Stdlib Require Import DecimalString DecimalZ.
From Stdlib Require Import Permutation.
From Stdlib.Strings Require Import Byte.
Import ListNotations.

Local Open Scope string_scope.
Local Open Scope Z_scope.

(** ** Exceptions *)

Inductive Result (A : Type) : Type :=
| Ok (a : A)
| Throw (message : string).
Arguments Ok {A} a.
Arguments Throw {A} message.

Definition bindR {A B} (r : Result A) (k : A -> Result B) : Result B :=
  match r with
  | Ok a => k a
  | Throw m => Throw m
  end.

Declare Scope result_scope.
Delimit Scope result_scope with result.
Notation "x <- e ;; k" := (bindR e (fun x => k))
  (at level 61, e at next level, right associativity) : result_scope.
Notation "e ;; k" := (bindR e (fun _ => k))
  (at level 61, right associativity) : result_scope.

(** [tiny-invariant]: [invariant(condition, message)] throws
    [Error("Invariant failed: " + message)] when the condition is falsy (the
    development build, which is what the test-suite's expected messages
    show). *)
Definition invariant (condition : bool) (message : string) : Result unit :=
  if condition then Ok tt else Throw ("Invariant failed: " ++ message).

(** ** BigNumber *)

Module BigNumber.

Definition t := Z.

Definition add (a b : t) : t := a + b.
Definition sub (a b : t) : t := a - b.
Definition lte (a b : t) : bool := a <=? b.

(** [BigNumber.prototype.toString()]: the decimal digits, most significant
    first, with a leading [-] for a negative value and ["0"] for zero. *)
Definition toString (a : t) : string := NilZero.string_of_int (Z.to_int a).

End BigNumber.

(** ** JavaScript numbers *)

Module JSNumber.

(** The text that [Number.prototype.toFixed] returns: an optional sign, the
    decimal digits of [units], and a decimal point before the last
    [fractionDigits] of them. *)
Record FixedString : Type := {
  negative : bool;
  units : Z;
  fractionDigits : nat
}.

(** [x.toFixed(f)] for a finite [x] below [10^21] in magnitude (ECMA-262,
    Number.prototype.toFixed): a negative [x] is written as [-] followed by
    the text of [-x]; then "let n be an integer for which [n / 10^f - x] is
    as close to zero as possible; if there are two such n, pick the larger
    n". *)
Definition toFixed (x : Q) (f : nat) : FixedString :=
  let scale := inject_Z (10 ^ Z.of_nat f) in
  if Qle_bool 0 x
  then {| negative := false;
          units := Qfloor (x * scale + (1 # 2));
          fractionDigits := f |}
  else {| negative := true;
          units := Qfloor ((- x) * scale + (1 # 2));
          fractionDigits := f |}.

(** [parseFloat] of such a text: the number it denotes.  (The double nearest
    to a decimal of up to 15 significant digits prints back as that decimal,
    so the value is kept as the decimal.) *)
Definition parseFloat (s : FixedString) : Q :=
  let v := (inject_Z (units s) / inject_Z (10 ^ Z.of_nat (fractionDigits s)))%Q in
  if negative s then (- v)%Q else v.

End JSNumber.

(** ** [src/types.ts] *)

Record DecimalValue : Type := { value : BigNumber.t }.

Record BidShares : Type := {
  owner : DecimalValue;
  prevOwner : DecimalValue;
  creator : DecimalValue
}.

(** ** [src/Decimal.ts] *)

Module Decimal.

(** Modelled from the spec: [Decimal.new] ([src/Decimal.ts] is not among the
    sources).  "Scales by 10^18 to produce an integer-valued fixed-point
    number.  Fails with InvalidNumber if value is negative or not finite";
    InvalidNumber is also raised for an input that is "otherwise
    unrepresentable", here one with more than 18 fractional digits. *)
Definition new (v : Q) : Result DecimalValue :=
  if Qle_bool 0 v
  then
    let scaled := (v * inject_Z (10 ^ 18))%Q in
    if Qeq_bool (inject_Z (Qfloor scaled)) scaled
    then Ok {| value := Qfloor scaled |}
    else Throw "InvalidNumber"
  else Throw "InvalidNumber".

End Decimal.

(** ** [@ethersproject/bytes] *)

Module Bytes.

(** [BytesLike = ArrayLike<number> | string].  Array elements are kept as
    integers so that out-of-range entries can be told apart ([isBytes]
    rejects them, as it rejects fractional ones). *)
Inductive BytesLike : Type :=
| Str (s : string)
| Arr (a : list Z).

(** The value of a character of the class [0-9A-Fa-f]. *)
Definition hexDigitValue (c : ascii) : option Z :=
  let code := Z.of_N (N_of_ascii c) in
  if (48 <=? code) && (code <=? 57) then Some (code - 48)
  else if (97 <=? code) && (code <=? 102) then Some (code - 87)
  else if (65 <=? code) && (code <=? 70) then Some (code - 55)
  else None.

Definition isHexDigit (c : ascii) : bool :=
  match hexDigitValue c with Some _ => true | None => false end.

Fixpoint allHexDigits (s : string) : bool :=
  match s with
  | EmptyString => true
  | String c rest => isHexDigit c && allHexDigits rest
  end.

(** [isHexString(value)]: [value.match(/^0x[0-9A-Fa-f]*$/)] (the optional
    [length] argument is never passed by the SDK). *)
Definition isHexString (value : string) : bool :=
  match value with
  | String "0" (String "x" digits) => allHexDigits digits
  | _ => false
  end.

Definition strlen (s : string) : Z := Z.of_nat (String.length s).

Definition isBytes (a : list Z) : bool :=
  forallb (fun v => (0 <=? v) && (v <? 256)) a.

Definition HexCharacters : string := "0123456789abcdef".

(** [HexCharacters[i]], spliced into a string. *)
Definition hexChar (i : Z) : string :=
  match String.get (Z.to_nat i) HexCharacters with
  | Some c => String c EmptyString
  | None => "undefined"
  end.

Definition toLowerChar (c : ascii) : ascii :=
  let n := N_of_ascii c in
  if ((65 <=? n) && (n <=? 90))%N then ascii_of_N (n + 32) else c.

Fixpoint toLowerCase (s : string) : string :=
  match s with
  | EmptyString => EmptyString
  | String c rest => String (toLowerChar c) (toLowerCase rest)
  end.

Fixpoint hexlifyBytes (a : list Z) : string :=
  match a with
  | [] => EmptyString
  | v :: rest =>
      hexChar (Z.shiftr (Z.land v 240) 4) ++ hexChar (Z.land v 15)
      ++ hexlifyBytes rest
  end.

(** [hexlify(value)] with no options, for a [BytesLike] argument. *)
Definition hexlify (value : BytesLike) : Result string :=
  match value with
  | Str s =>
      if isHexString s
      then if Z.odd (strlen s)
           then Throw "hex data is odd-length"
           else Ok (toLowerCase s)
      else Throw "invalid hexlify value"
  | Arr a =>
      if isBytes a
      then Ok ("0x" ++ hexlifyBytes a)
      else Throw "invalid hexlify value"
  end.

(** [hexDataLength(data)]: a number, or [null]. *)
Definition hexDataLength (data : BytesLike) : Result (option Z) :=
  match data with
  | Arr _ =>
      (s <- hexlify data ;; Ok (Some ((strlen s - 2) / 2)))%result
  | Str s =>
      if negb (isHexString s) || Z.odd (strlen s)
      then Ok None
      else Ok (Some ((strlen s - 2) / 2))
  end.

(** [parseInt(hex.substring(i, i + 2), 16)] for [i = 0, 2, 4, ...]. *)
Definition parseInt16 (hi : ascii) (lo : option ascii) : Z :=
  match hexDigitValue hi with
  | None => 0 (* NaN, stored in a Uint8Array as 0 *)
  | Some h =>
      match option_map hexDigitValue lo with
      | Some (Some l) => 16 * h + l
      | _ => h
      end
  end.

Fixpoint parsePairs (hex : string) : list Z :=
  match hex with
  | String hi (String lo rest) => parseInt16 hi (Some lo) :: parsePairs rest
  | String hi EmptyString => [parseInt16 hi None]
  | EmptyString => []
  end.

(** [arrayify(value)] with no options: the raw bytes a [BytesLike] denotes. *)
Definition arrayify (value : BytesLike) : Result (list Z) :=
  match value with
  | Str s =>
      if isHexString s
      then if Z.odd (strlen s)
           then Throw "hex data is odd-length"
           else Ok (parsePairs (substring 2 (String.length s - 2) s))
      else Throw "invalid arrayify value"
  | Arr a =>
      if isBytes a then Ok a else Throw "invalid arrayify value"
  end.

End Bytes.

(** ** [src/types.ts], continued *)

Record Ask : Type := {
  ask_currency : string;
  ask_amount : BigNumber.t
}.

Record Bid : Type := {
  currency : string;
  amount : BigNumber.t;
  bidder : string;
  recipient : string;
  sellOnShare : DecimalValue
}.

Record ItemData : Type := {
  tokenURI : string;
  metadataURI : string;
  contentHash : Bytes.BytesLike;
  metadataHash : Bytes.BytesLike
}.

Record EIP712Signature : Type := {
  deadline : BigNumber.t;
  sig_v : Z;
  sig_r : Bytes.BytesLike;
  sig_s : Bytes.BytesLike
}.

(** ** Regular expressions of [src/utils.ts] *)

Module RegExp.

(** Line terminators, which [.] does not match. *)
Definition isLineTerminator (c : ascii) : bool :=
  (c =? "010")%char || (c =? "013")%char.

(** The longest prefix matched by [.*]. *)
Fixpoint dotStar (s : string) : string :=
  match s with
  | EmptyString => EmptyString
  | String c rest =>
      if isLineTerminator c then EmptyString else String c (dotStar rest)
  end.

(** Matches the characters of [literal] one by one at the start of [s];
    returns what follows them. *)
Fixpoint literal (lit s : string) : option string :=
  match lit, s with
  | EmptyString, _ => Some s
  | String a lit', String b s' =>
      if (a =? b)%char then literal lit' s' else None
  | String _ _, EmptyString => None
  end.

(** [uri.match(re)] for the pattern of [validateURI]: a start anchor, the
    literal [https://], then a capture group holding dot-star.  The result
    is [null], or the array of the whole match and of capture group 1.  The
    pattern has no [g] or [m] flag, so the anchor is the start of the
    input. *)
Definition match_https (uri : string) : option (list string) :=
  match literal "https://" uri with
  | Some rest => Some ["https://" ++ dotStar rest; dotStar rest]
  | None => None
  end.

End RegExp.

(** ** Node's [Buffer] *)

Module Buffer.

Definition t := list Byte.byte.

Definition hexDigit (n : Z) : ascii :=
  match String.get (Z.to_nat n) "0123456789abcdef" with
  | Some c => c
  | None => "0"%char
  end.

(** [buffer.toString("hex")]: two lower-case digits per byte. *)
Fixpoint toString_hex (buffer : t) : string :=
  match buffer with
  | [] => EmptyString
  | b :: rest =>
      let v := Z.of_N (Byte.to_N b) in
      String (hexDigit (v / 16)) (String (hexDigit (v mod 16)) (toString_hex rest))
  end.

(** [Buffer.from(text)] for text of one-byte characters. *)
Definition from (text : string) : t := list_byte_of_string text.

End Buffer.

(** ** [sjcl]: hex codec and SHA-256

    A [bitArray] is kept as the sequence of its bits, most significant
    first. *)

Module Sjcl.

Definition bitArray := list bool.

(** [\s], for one-byte characters. *)
Definition isWhitespace (c : ascii) : bool :=
  match N_of_ascii c with
  | 9 | 10 | 11 | 12 | 13 | 32 => true
  | _ => false
  end%N.

(** [str.replace(re, "")] where [re] is the global pattern that matches a
    whitespace character or the two characters [0x]. *)
Fixpoint strip (str : string) : string :=
  match str with
  | EmptyString => EmptyString
  | String c rest =>
      if isWhitespace c then strip rest
      else
        match rest with
        | String d rest' =>
            if ((c =? "0") && (d =? "x"))%char then strip rest'
            else String c (strip rest)
        | EmptyString => String c EmptyString
        end
  end.

Definition nibbleBits (n : Z) : bitArray :=
  [Z.testbit n 3; Z.testbit n 2; Z.testbit n 1; Z.testbit n 0].

(** Four bits per hexadecimal digit.  (On a character that is not a digit
    [sjcl] lets [parseInt] decide what the enclosing word becomes; the SDK
    only passes digit strings, namely the hex text of a buffer or a string
    that passed [isHexString], and such characters are skipped here.) *)
Fixpoint hexBits (digits : string) : bitArray :=
  match digits with
  | EmptyString => []
  | String c rest =>
      match Bytes.hexDigitValue c with
      | Some n => (nibbleBits n ++ hexBits rest)%list
      | None => hexBits rest
      end
  end.

(** [sjcl.codec.hex.toBits] *)
Definition codec_hex_toBits (str : string) : bitArray := hexBits (strip str).

(** [sjcl.codec.hex.fromBits]: one lower-case digit per four bits. *)
Fixpoint codec_hex_fromBits (arr : bitArray) : string :=
  match arr with
  | b3 :: b2 :: b1 :: b0 :: rest =>
      String (Buffer.hexDigit (8 * Z.b2z b3 + 4 * Z.b2z b2 + 2 * Z.b2z b1 + Z.b2z b0))
             (codec_hex_fromBits rest)
  | _ => EmptyString
  end.

(** *** SHA-256 (FIPS 180-4), as [sjcl.hash.sha256.hash] computes it *)

Definition add32 (a b : Z) : Z := (a + b) mod 2 ^ 32.
Definition rotr (n x : Z) : Z :=
  Z.lor (Z.shiftr x n) (Z.shiftl x (32 - n) mod 2 ^ 32).
Definition not32 (x : Z) : Z := Z.lxor x (2 ^ 32 - 1).

Definition Ch (x y z : Z) : Z := Z.lxor (Z.land x y) (Z.land (not32 x) z).
Definition Maj (x y z : Z) : Z :=
  Z.lxor (Z.lxor (Z.land x y) (Z.land x z)) (Z.land y z).
Definition Sigma0 (x : Z) : Z := Z.lxor (Z.lxor (rotr 2 x) (rotr 13 x)) (rotr 22 x).
Definition Sigma1 (x : Z) : Z := Z.lxor (Z.lxor (rotr 6 x) (rotr 11 x)) (rotr 25 x).
Definition sigma0 (x : Z) : Z := Z.lxor (Z.lxor (rotr 7 x) (rotr 18 x)) (Z.shiftr x 3).
Definition sigma1 (x : Z) : Z := Z.lxor (Z.lxor (rotr 17 x) (rotr 19 x)) (Z.shiftr x 10).

(** [sjcl.hash.sha256._precompute]: the round keys are the first 32 bits
    of the fractional parts of the cube roots of the first 64 primes, the
    initial state those of the square roots of the first 8. *)
Definition isPrime (prime : Z) : bool :=
  forallb (fun factor => negb ((factor * factor <=? prime)
                               && (prime mod factor =? 0)))
          (map Z.of_nat (seq 2 (Z.to_nat prime - 2))).

Definition primes : list Z :=
  firstn 64 (filter isPrime (map Z.of_nat (seq 2 400))).

(** The integer part of a cube root, found bit by bit from the top. *)
Fixpoint cbrt_bits (bits : nat) (n r : Z) : Z :=
  match bits with
  | O => r
  | S b =>
      let r' := r + 2 ^ Z.of_nat b in
      cbrt_bits b n (if r' * r' * r' <=? n then r' else r)
  end.

Definition frac_cbrt (prime : Z) : Z := cbrt_bits 44 (prime * 2 ^ 96) 0 mod 2 ^ 32.
Definition frac_sqrt (prime : Z) : Z := Z.sqrt (prime * 2 ^ 64) mod 2 ^ 32.

Definition K : list Z := Eval vm_compute in map frac_cbrt primes.

Definition init : list Z := Eval vm_compute in map frac_sqrt (firstn 8 primes).

Definition State : Type := (Z * Z * Z * Z * Z * Z * Z * Z)%type.

Definition H0 : State :=
  (nth 0 init 0, nth 1 init 0, nth 2 init 0, nth 3 init 0,
   nth 4 init 0, nth 5 init 0, nth 6 init 0, nth 7 init 0).

(** The big-endian bits of the low [n] bits of [z]. *)
Definition ZToBits (n : nat) (z : Z) : bitArray :=
  map (fun i => Z.testbit z (Z.of_nat i)) (rev (seq 0 n)).

Fixpoint bitsToZ (acc : Z) (bits : bitArray) : Z :=
  match bits with
  | [] => acc
  | b :: rest => bitsToZ (2 * acc + Z.b2z b) rest
  end.

Fixpoint chunks {A} (fuel size : nat) (l : list A) : list (list A) :=
  match fuel, l with
  | S fuel', _ :: _ => firstn size l :: chunks fuel' size (skipn size l)
  | _, _ => []
  end.

Definition pad (m : bitArray) : bitArray :=
  let l := Z.of_nat (List.length m) in
  (m ++ [true] ++ repeat false (Z.to_nat ((447 - l) mod 512)) ++ ZToBits 64 l)%list.

(** The message schedule, most recent word first. *)
Fixpoint schedule (n : nat) (w : list Z) : list Z :=
  match n with
  | O => w
  | S n' =>
      schedule n'
        (add32 (add32 (add32 (sigma1 (nth 1 w 0)) (nth 6 w 0))
                      (sigma0 (nth 14 w 0)))
               (nth 15 w 0) :: w)
  end.

Definition round (st : State) (kw : Z * Z) : State :=
  let '(a, b, c, d, e, f, g, h) := st in
  let t1 := add32 (add32 (add32 (add32 h (Sigma1 e)) (Ch e f g)) (fst kw)) (snd kw) in
  let t2 := add32 (Sigma0 a) (Maj a b c) in
  (add32 t1 t2, a, b, c, add32 d t1, e, f, g).

Definition compress (st : State) (block : list Z) : State :=
  let w := rev (schedule 48 (rev block)) in
  let '(a, b, c, d, e, f, g, h) := fold_left round (combine K w) st in
  let '(a0, b0, c0, d0, e0, f0, g0, h0) := st in
  (add32 a0 a, add32 b0 b, add32 c0 c, add32 d0 d,
   add32 e0 e, add32 f0 f, add32 g0 g, add32 h0 h).

Definition digestWords (data : bitArray) : State :=
  let padded := pad data in
  let words := map (bitsToZ 0) (chunks (List.length padded) 32 padded) in
  fold_left compress (chunks (List.length words) 16 words) H0.

(** [sjcl.hash.sha256.hash] *)
Definition hash_sha256_hash (data : bitArray) : bitArray :=
  let '(a, b, c, d, e, f, g, h) := digestWords data in
  flat_map (ZToBits 32) [a; b; c; d; e; f; g; h].

End Sjcl.

(** ** [src/types.ts]: the other content records *)

Record AvatarData : Type := {
  avatar_tokenURI : string;
  avatar_metadataURI : string;
  avatar_contentHash : Bytes.BytesLike;
  avatar_metadataHash : Bytes.BytesLike;
  isDefault : bool
}.

Record SpaceData : Type := {
  space_tokenURI : string;
  space_metadataURI : string;
  space_contentHash : Bytes.BytesLike;
  space_metadataHash : Bytes.BytesLike;
  isPublic : bool;
  lands : list BigNumber.t;
  pin : string
}.

Record LandData : Type := {
  land_tokenURI : string;
  land_metadataURI : string;
  land_contentHash : Bytes.BytesLike;
  land_metadataHash : Bytes.BytesLike;
  xCoordinate : Z;
  yCoordinate : Z
}.

Record ContractTransaction : Type := { hash : string }.

Record EIP712Domain : Type := {
  domain_name : string;
  domain_version : string;
  domain_chainId : Z;
  verifyingContract : string
}.

(** ** Promises, outside calls and their log *)

Inductive Promise (A : Type) : Type :=
| Resolved (v : A)
| Rejected (reason : string).
Arguments Resolved {A} v.
Arguments Rejected {A} reason.

(** The calls that leave the SDK, indexed by what they resolve to: the HTTP
    request of [axios.get] (with [responseType: "arraybuffer"], so the body
    comes back as a buffer), and the methods of the [Item] and
    [ItemExchange] contract bindings. *)
Inductive Call : Type -> Type :=
| AxiosGet (uri : string) (timeout : Z) : Call Buffer.t
| Item_tokenContentHashes (itemId : Z) : Call string
| Item_tokenMetadataHashes (itemId : Z) : Call string
| Item_tokenContractAddresses (itemId : Z) : Call string
| Item_tokenURI (itemId : Z) : Call string
| Item_tokenMetadataURI (itemId : Z) : Call string
| Item_tokenCreators (itemId : Z) : Call string
| Item_permitNonces (address : string) (itemId : Z) : Call BigNumber.t
| Item_mintWithSigNonces (address : string) : Call BigNumber.t
| Item_balanceOf (owner : string) : Call BigNumber.t
| Item_ownerOf (itemId : Z) : Call string
| Item_tokenOfOwnerByIndex (owner : string) (index : Z) : Call BigNumber.t
| Item_totalSupply : Call BigNumber.t
| Item_tokenByIndex (index : Z) : Call BigNumber.t
| Item_getApproved (itemId : Z) : Call string
| Item_isApprovedForAll (owner operator : string) : Call bool
| Item_updateTokenURI (itemId : Z) (tokenURI : string) : Call ContractTransaction
| Item_updateTokenMetadataURI (itemId : Z) (metadataURI : string)
  : Call ContractTransaction
| Item_estimateGas_mint (itemData : ItemData) (bidShares : BidShares)
  : Call BigNumber.t
| Item_mint (itemData : ItemData) (bidShares : BidShares) (gasLimit : string)
  : Call ContractTransaction
| Item_estimateGas_mintMultiple (itemData : list ItemData)
    (bidShares : list BidShares) : Call BigNumber.t
| Item_mintMultiple (itemData : list ItemData) (bidShares : list BidShares)
    (gasLimit : string) : Call ContractTransaction
| Item_mintWithSig (creator : string) (itemData : ItemData)
    (bidShares : BidShares) (sig : EIP712Signature) : Call ContractTransaction
| Item_setAsk (itemId : Z) (ask : Ask) : Call ContractTransaction
| Item_setBid (itemId : Z) (bid : Bid) : Call ContractTransaction
| Item_removeAsk (itemId : Z) : Call ContractTransaction
| Item_removeBid (itemId : Z) : Call ContractTransaction
| Item_acceptBid (itemId : Z) (bid : Bid) : Call ContractTransaction
| Item_permit (spender : string) (itemId : Z) (sig : EIP712Signature)
  : Call ContractTransaction
| Item_revokeApproval (itemId : Z) : Call ContractTransaction
| Item_burn (itemId : Z) : Call ContractTransaction
| Item_approve (to : string) (itemId : Z) : Call ContractTransaction
| Item_setApprovalForAll (operator : string) (approved : bool)
  : Call ContractTransaction
| Item_transferFrom (from to : string) (itemId : Z) : Call ContractTransaction
| Item_safeTransferFrom (from to : string) (itemId : Z)
  : Call ContractTransaction
| Exchange_bidSharesForToken (itemId : Z) : Call BidShares
| Exchange_currentAskForToken (itemId : Z) : Call Ask
| Exchange_bidForTokenBidder (itemId : Z) (bidder : string) : Call Bid
| Exchange_isValidBid (itemId : Z) (amount : BigNumber.t) : Call bool.

(** What the log records: a call going out, and its promise settling. *)
Inductive Event : Type :=
| Request {R : Type} (c : Call R)
| Response {R : Type} (c : Call R).

(** The outside world answers a call, possibly depending on everything that
    happened before it. *)
Definition World : Type := forall R : Type, list Event -> Call R -> Promise R.

(** An [async] computation: from the log so far to a settled promise and
    the extended log. *)
Definition Async (A : Type) : Type := list Event -> Promise A * list Event.

Module Async.

Definition ret {A} (a : A) : Async A := fun log => (Resolved a, log).

Definition reject {A} (reason : string) : Async A :=
  fun log => (Rejected reason, log).

Definition bind {A B} (m : Async A) (k : A -> Async B) : Async B :=
  fun log =>
    match m log with
    | (Resolved a, log') => k a log'
    | (Rejected reason, log') => (Rejected reason, log')
    end.

(** A synchronous step inside an [async] function.  An exception rejects
    the function's promise, with the exception's message as the reason;
    that is also what the SDK's
    [catch (err) { return Promise.reject(err.message) }] produces. *)
Definition lift {A} (r : Result A) : Async A :=
  match r with
  | Ok a => ret a
  | Throw message => reject message
  end.

(** [await] (or [return]) of an outside call: the request goes out, then
    the function is suspended until the promise settles. *)
Definition call (w : World) {R} (c : Call R) : Async R :=
  fun log =>
    let sent := (log ++ [Request c])%list in
    (w R sent c, (sent ++ [Response c])%list).

End Async.

Declare Scope async_scope.
Delimit Scope async_scope with async.
Notation "x <- e ;; k" := (Async.bind e (fun x => k))
  (at level 61, e at next level, right associativity) : async_scope.
Notation "e ;; k" := (Async.bind e (fun _ => k))
  (at level 61, right associativity) : async_scope.

(** ** [Promise.all]

    The calls of a batch are all sent before any of them settles.  The
    world answers each of them from the log as it stood when the batch had
    been sent; the call at index [i] settles at time [settleTime i], the
    lower index first on a tie.  The batch is rejected with the reason of
    the first call to settle rejected, at that moment; otherwise it
    resolves, once the last call has settled, to the values in index
    order. *)

Module PromiseAll.

Section WithTimes.

Variable settleTime : nat -> nat.

Fixpoint insertByTime (i : nat) (order : list nat) : list nat :=
  match order with
  | [] => [i]
  | j :: rest =>
      if (settleTime i <=? settleTime j)%nat
      then i :: order
      else j :: insertByTime i rest
  end.

(** The indices below [n], by settling time. *)
Definition settleOrder (n : nat) : list nat :=
  fold_right insertByTime [] (seq 0 n).

(** Lets the calls settle in [order] up to the first rejection. *)
Fixpoint settle {R} (calls : list (Call R)) (answers : list (Promise R))
    (order : list nat) (log : list Event) : option string * list Event :=
  match order with
  | [] => (None, log)
  | i :: rest =>
      match nth_error calls i, nth_error answers i with
      | Some c, Some (Rejected reason) =>
          (Some reason, (log ++ [Response c])%list)
      | Some c, Some (Resolved _) =>
          settle calls answers rest (log ++ [Response c])%list
      | _, _ => settle calls answers rest log
      end
  end.

Fixpoint values {R} (answers : list (Promise R)) : list R :=
  match answers with
  | [] => []
  | Resolved v :: rest => v :: values rest
  | Rejected _ :: rest => values rest
  end.

Definition all {R} (w : World) (calls : list (Call R)) : Async (list R) :=
  fun log =>
    let sent := (log ++ map (fun c => Request c) calls)%list in
    let answers := map (fun c => w R sent c) calls in
    match settle calls answers (settleOrder (List.length calls)) sent with
    | (Some reason, log') => (Rejected reason, log')
    | (None, log') => (Resolved (values answers), log')
    end.

End WithTimes.

End PromiseAll.

(** ** [src/utils.ts] *)

Module Utils.

(** *** Type constructors and validators *)

Definition validateBytes32 (v : Bytes.BytesLike) : Result unit :=
  match v with
  | Bytes.Str s =>
      (ok <- (if Bytes.isHexString s
              then len <- Bytes.hexDataLength v ;;
                   Ok match len with Some n => n =? 32 | None => false end
              else Ok false) ;;
       if ok : bool
       then Ok tt
       else invariant false (s ++ " is not a 0x prefixed 32 bytes hex string"))%result
  | Bytes.Arr _ =>
      (h <- Bytes.hexlify v ;;
       len <- Bytes.hexDataLength (Bytes.Str h) ;;
       if match len with Some n => n =? 32 | None => false end
       then Ok tt
       else invariant false "value is not a length 32 byte array")%result
  end.

Definition validateURI (uri : string) : Result unit :=
  match RegExp.match_https uri with
  | None => invariant false (uri ++ " must begin with `https://`")
  | Some _ => Ok tt
  end.

Definition chainIdToNetworkName (chainId : Z) : Result string :=
  match chainId with
  | 7018 => Ok "motif"
  | 3 => Ok "ropsten"
  | 1 => Ok "mainnet"
  | _ =>
      (invariant false
         ("chainId " ++ BigNumber.toString chainId
          ++ " not officially supported by the Motif") ;;
       Ok "undefined")%result
  end.

Definition constructItemData (tokenURI metadataURI : string)
    (contentHash metadataHash : Bytes.BytesLike) : Result ItemData :=
  (validateBytes32 contentHash ;;
   validateBytes32 metadataHash ;;
   validateURI tokenURI ;;
   validateURI metadataURI ;;
   Ok {| tokenURI := tokenURI; metadataURI := metadataURI;
         contentHash := contentHash; metadataHash := metadataHash |})%result.

Definition constructLandData (tokenURI metadataURI : string)
    (contentHash metadataHash : Bytes.BytesLike) (xCoordinate yCoordinate : Z)
  : Result LandData :=
  (validateBytes32 contentHash ;;
   validateBytes32 metadataHash ;;
   validateURI tokenURI ;;
   validateURI metadataURI ;;
   Ok {| land_tokenURI := tokenURI; land_metadataURI := metadataURI;
         land_contentHash := contentHash; land_metadataHash := metadataHash;
         xCoordinate := xCoordinate; yCoordinate := yCoordinate |})%result.

Definition validateBidShares (creator owner prevOwner : DecimalValue)
  : Result unit :=
  (decimal100 <- Decimal.new (100 # 1) ;;
   let sum :=
     BigNumber.add (BigNumber.add (value creator) (value owner))
                   (value prevOwner) in
   if negb (BigNumber.toString sum =? BigNumber.toString (value decimal100))%string
   then invariant false
          ("The BidShares sum to " ++ BigNumber.toString sum
           ++ ", but they must sum to "
           ++ BigNumber.toString (value decimal100))
   else Ok tt)%result.

(** The expression [Decimal.new(parseFloat(x.toFixed(4)))] that
    [constructBidShares] applies to each share and [constructBid] to
    [sellOnShare] (the spec's [makeDecimal]). *)
Definition makeDecimal (x : Q) : Result DecimalValue :=
  Decimal.new (JSNumber.parseFloat (JSNumber.toFixed x 4)).

Definition constructBidShares (creator owner prevOwner : Q)
  : Result BidShares :=
  (decimalCreator <- makeDecimal creator ;;
   decimalOwner <- makeDecimal owner ;;
   decimalPrevOwner <- makeDecimal prevOwner ;;
   validateBidShares decimalCreator decimalOwner decimalPrevOwner ;;
   Ok {| creator := decimalCreator;
         owner := decimalOwner;
         prevOwner := decimalPrevOwner |})%result.

Section Addresses.

(** [getAddress] of [@ethersproject/address]: the checksummed form of a
    well-formed address, an exception otherwise. *)
Variable getAddress : string -> Result string.

(** [warning(address === checksummedAddress, ...)] only writes to the
    console. *)
Definition validateAndParseAddress (address : string) : Result string :=
  match getAddress address with
  | Ok checksummedAddress => Ok checksummedAddress
  | Throw _ =>
      (invariant false (address ++ " is not a valid address.") ;;
       Ok "undefined")%result
  end.

Definition constructAsk (currency : string) (amount : BigNumber.t)
  : Result Ask :=
  (parsedCurrency <- validateAndParseAddress currency ;;
   Ok {| ask_currency := parsedCurrency; ask_amount := amount |})%result.

(** [try { x = f() } catch (err) { throw new Error(prefix + err.message) }] *)
Definition rethrow {A} (prefix : string) (r : Result A) : Result A :=
  match r with
  | Ok a => Ok a
  | Throw m => Throw (prefix ++ m)
  end.

Definition constructBid (currency : string) (amount : BigNumber.t)
    (bidder recipient : string) (sellOnShare : Q) : Result Bid :=
  (parsedCurrency <-
     rethrow "Currency address is invalid: " (validateAndParseAddress currency) ;;
   parsedBidder <-
     rethrow "Bidder address is invalid: " (validateAndParseAddress bidder) ;;
   parsedRecipient <-
     rethrow "Recipient address is invalid: " (validateAndParseAddress recipient) ;;
   decimalSellOnShare <- makeDecimal sellOnShare ;;
   Ok {| currency := parsedCurrency;
         amount := amount;
         bidder := parsedBidder;
         recipient := parsedRecipient;
         sellOnShare := decimalSellOnShare |})%result.

End Addresses.

(** *** Hashing utilities *)

Definition sha256FromBuffer (buffer : Buffer.t) : string :=
  let bitArray := Sjcl.codec_hex_toBits (Buffer.toString_hex buffer) in
  let hashArray := Sjcl.hash_sha256_hash bitArray in
  "0x" ++ Sjcl.codec_hex_fromBits hashArray.

Definition sha256FromHexString (data : string) : Result string :=
  if negb (Bytes.isHexString data)
  then Throw (data ++ " is not valid 0x prefixed hex")
  else
    let bitArray := Sjcl.codec_hex_toBits data in
    let hashArray := Sjcl.hash_sha256_hash bitArray in
    Ok ("0x" ++ Sjcl.codec_hex_fromBits hashArray).

Definition stripHexPrefix (hex : string) : string :=
  if (substring 0 2 hex =? "0x")%string
  then substring 2 (String.length hex - 2) hex
  else hex.

(** *** Verification of content against its hash *)

Section WithWorld.

Variable w : World.

Definition isURIHashVerified (uri : string) (expectedHash : Bytes.BytesLike)
    (timeout : Z) : Async bool :=
  (Async.lift (validateURI uri) ;;
   resp <- Async.call w (AxiosGet uri timeout) ;;
   let uriHash := sha256FromBuffer resp in
   normalizedExpectedHash <- Async.lift (Bytes.hexlify expectedHash) ;;
   Async.ret (uriHash =? normalizedExpectedHash)%string)%async.

Definition isItemDataVerified (itemData : ItemData) (timeout : Z)
  : Async bool :=
  (isTokenURIVerified <-
     isURIHashVerified (tokenURI itemData) (contentHash itemData) timeout ;;
   isMetadataURIVerified <-
     isURIHashVerified (metadataURI itemData) (metadataHash itemData) timeout ;;
   Async.ret (isTokenURIVerified && isMetadataURIVerified))%async.

Definition isAvatarDataVerified (avatarData : AvatarData) (timeout : Z)
  : Async bool :=
  (isTokenURIVerified <-
     isURIHashVerified (avatar_tokenURI avatarData)
       (avatar_contentHash avatarData) timeout ;;
   isMetadataURIVerified <-
     isURIHashVerified (avatar_metadataURI avatarData)
       (avatar_metadataHash avatarData) timeout ;;
   Async.ret (isTokenURIVerified && isMetadataURIVerified))%async.

Definition isSpaceDataVerified (spaceData : SpaceData) (timeout : Z)
  : Async bool :=
  (isTokenURIVerified <-
     isURIHashVerified (space_tokenURI spaceData)
       (space_contentHash spaceData) timeout ;;
   isMetadataURIVerified <-
     isURIHashVerified (space_metadataURI spaceData)
       (space_metadataHash spaceData) timeout ;;
   Async.ret (isTokenURIVerified && isMetadataURIVerified))%async.

Definition isLandDataVerified (landData : LandData) (timeout : Z)
  : Async bool :=
  (isTokenURIVerified <-
     isURIHashVerified (land_tokenURI landData)
       (land_contentHash landData) timeout ;;
   isMetadataURIVerified <-
     isURIHashVerified (land_metadataURI landData)
       (land_metadataHash landData) timeout ;;
   Async.ret (isTokenURIVerified && isMetadataURIVerified))%async.

End WithWorld.

End Utils.

(** ** [src/MotifItem.ts] *)

Module MotifItem.

Inductive SignerOrProvider : Type :=
| ASigner (address : string)
| AProvider (url : string).

Definition Signer_isSigner (value : SignerOrProvider) : bool :=
  match value with
  | ASigner _ => true
  | AProvider _ => false
  end.

Record t : Type := {
  chainId : Z;
  itemAddress : string;
  itemExchangeAddress : string;
  signerOrProvider : SignerOrProvider;
  readOnly : bool
}.

(** One network's entry of the address book. *)
Record Deployment : Type := {
  item : string;
  itemExchange : string
}.

(** An optional string argument is truthy when given and not empty. *)
Definition truthy (s : option string) : bool :=
  match s with
  | Some s => negb (s =? "")%string
  | None => false
  end.

Section Constructor.

Variable getAddress : string -> Result string.
(** [addresses] of [src/addresses.ts]: network name to deployment. *)
Variable addresses : string -> option Deployment.

Definition new (signerOrProvider : SignerOrProvider) (chainId : Z)
    (itemAddress itemExchangeAddress : option string) : Result t :=
  ((if negb (Bool.eqb (negb (truthy itemAddress))
                      (negb (truthy itemExchangeAddress)))
    then invariant false
           "Motif Constructor: itemAddress and itemExchangeAddress must both be non-null or both be null"
    else Ok tt) ;;
   let readOnly := if Signer_isSigner signerOrProvider then false else true in
   let fromAddressBook :=
     network <- Utils.chainIdToNetworkName chainId ;;
     match addresses network with
     | Some d => Ok (item d, itemExchange d)
     | None => Throw "Cannot read property 'item' of undefined"
     end in
   resolved <-
     (match itemAddress, itemExchangeAddress with
      | Some a, Some e =>
          if truthy itemAddress && truthy itemExchangeAddress
          then
            parsedItemAddress <- Utils.validateAndParseAddress getAddress a ;;
            parsedItemExchangeAddress <-
              Utils.validateAndParseAddress getAddress e ;;
            Ok (parsedItemAddress, parsedItemExchangeAddress)
          else fromAddressBook
      | _, _ => fromAddressBook
      end) ;;
   Ok {| chainId := chainId;
         itemAddress := fst resolved;
         itemExchangeAddress := snd resolved;
         signerOrProvider := signerOrProvider;
         readOnly := readOnly |})%result.

End Constructor.

Definition ensureNotReadOnly (this : t) : Result unit :=
  if readOnly this
  then Throw "ensureNotReadOnly: readOnly Motif instance cannot call contract methods that require a signer."
  else Ok tt.

Section Methods.

(** The contracts [this.item] and [this.itemExchange] are bound to, and the
    rest of the outside world. *)
Variable w : World.
Variable this : t.

(** *** View methods *)

Definition fetchContentHash (itemId : Z) : Async string :=
  Async.call w (Item_tokenContentHashes itemId).
Definition fetchMetadataHash (itemId : Z) : Async string :=
  Async.call w (Item_tokenMetadataHashes itemId).
Definition fetchTokenContract (itemId : Z) : Async string :=
  Async.call w (Item_tokenContractAddresses itemId).
Definition fetchContentURI (itemId : Z) : Async string :=
  Async.call w (Item_tokenURI itemId).
Definition fetchMetadataURI (itemId : Z) : Async string :=
  Async.call w (Item_tokenMetadataURI itemId).
Definition fetchCreator (itemId : Z) : Async string :=
  Async.call w (Item_tokenCreators itemId).
Definition fetchCurrentBidShares (itemId : Z) : Async BidShares :=
  Async.call w (Exchange_bidSharesForToken itemId).
Definition fetchCurrentAsk (itemId : Z) : Async Ask :=
  Async.call w (Exchange_currentAskForToken itemId).
Definition fetchCurrentBidForBidder (itemId : Z) (bidder : string) : Async Bid :=
  Async.call w (Exchange_bidForTokenBidder itemId bidder).
Definition fetchPermitNonce (address : string) (itemId : Z) : Async BigNumber.t :=
  Async.call w (Item_permitNonces address itemId).
Definition fetchMintWithSigNonce (address : string) : Async BigNumber.t :=
  Async.call w (Item_mintWithSigNonces address).
Definition fetchBalanceOf (owner : string) : Async BigNumber.t :=
  Async.call w (Item_balanceOf owner).
Definition fetchOwnerOf (itemId : Z) : Async string :=
  Async.call w (Item_ownerOf itemId).
Definition fetchItemOfOwnerByIndex (owner : string) (index : Z)
  : Async BigNumber.t :=
  Async.call w (Item_tokenOfOwnerByIndex owner index).
Definition fetchTotalItem : Async BigNumber.t :=
  Async.call w Item_totalSupply.
Definition fetchItemByIndex (index : Z) : Async BigNumber.t :=
  Async.call w (Item_tokenByIndex index).
Definition fetchApproved (itemId : Z) : Async string :=
  Async.call w (Item_getApproved itemId).
Definition fetchIsApprovedForAll (owner operator : string) : Async bool :=
  Async.call w (Item_isApprovedForAll owner operator).

(** *** Write methods *)

Definition updateContentURI (itemId : Z) (tokenURI : string)
  : Async ContractTransaction :=
  (Async.lift (ensureNotReadOnly this ;; Utils.validateURI tokenURI)%result ;;
   Async.call w (Item_updateTokenURI itemId tokenURI))%async.

Definition updateMetadataURI (itemId : Z) (metadataURI : string)
  : Async ContractTransaction :=
  (Async.lift (ensureNotReadOnly this ;; Utils.validateURI metadataURI)%result ;;
   Async.call w (Item_updateTokenMetadataURI itemId metadataURI))%async.

(** [gasEstimate.mul(110).div(100)] *)
Definition padGas (gasEstimate : BigNumber.t) : BigNumber.t :=
  Z.quot (gasEstimate * 110) 100.

Definition mint (itemData : ItemData) (bidShares : BidShares)
  : Async ContractTransaction :=
  (Async.lift
     (ensureNotReadOnly this ;;
      Utils.validateURI (metadataURI itemData) ;;
      Utils.validateURI (tokenURI itemData) ;;
      Utils.validateBidShares (creator bidShares) (owner bidShares)
        (prevOwner bidShares))%result ;;
   gasEstimate <- Async.call w (Item_estimateGas_mint itemData bidShares) ;;
   let paddedEstimate := padGas gasEstimate in
   Async.call w
     (Item_mint itemData bidShares (BigNumber.toString paddedEstimate)))%async.

(** The callback that [mintMultiple] maps over [itemData], with its index. *)
Fixpoint validateEach (itemData : list ItemData) (bidShares : list BidShares)
    (index : nat) : Result unit :=
  match itemData with
  | [] => Ok tt
  | item :: rest =>
      (Utils.validateURI (metadataURI item) ;;
       Utils.validateURI (tokenURI item) ;;
       match nth_error bidShares index with
       | Some s =>
           Utils.validateBidShares (creator s) (owner s) (prevOwner s)
       | None => Throw "Cannot read property 'creator' of undefined"
       end ;;
       validateEach rest bidShares (S index))%result
  end.

Definition mintMultiple (itemData : list ItemData) (bidShares : list BidShares)
  : Async ContractTransaction :=
  (Async.lift
     (ensureNotReadOnly this ;; validateEach itemData bidShares 0)%result ;;
   gasEstimate <-
     Async.call w (Item_estimateGas_mintMultiple itemData bidShares) ;;
   let paddedEstimate := padGas gasEstimate in
   Async.call w
     (Item_mintMultiple itemData bidShares
        (BigNumber.toString paddedEstimate)))%async.

Definition mintWithSig (creatorAddress : string) (itemData : ItemData)
    (bidShares : BidShares) (sig : EIP712Signature)
  : Async ContractTransaction :=
  (Async.lift
     (ensureNotReadOnly this ;;
      Utils.validateURI (metadataURI itemData) ;;
      Utils.validateURI (tokenURI itemData) ;;
      Utils.validateBidShares (creator bidShares) (owner bidShares)
        (prevOwner bidShares))%result ;;
   Async.call w (Item_mintWithSig creatorAddress itemData bidShares sig))%async.

Definition setAsk (itemId : Z) (ask : Ask) : Async ContractTransaction :=
  (Async.lift (ensureNotReadOnly this) ;;
   Async.call w (Item_setAsk itemId ask))%async.

Definition setBid (itemId : Z) (bid : Bid) : Async ContractTransaction :=
  (Async.lift (ensureNotReadOnly this) ;;
   Async.call w (Item_setBid itemId bid))%async.

Definition removeAsk (itemId : Z) : Async ContractTransaction :=
  (Async.lift (ensureNotReadOnly this) ;;
   Async.call w (Item_removeAsk itemId))%async.

Definition removeBid (itemId : Z) : Async ContractTransaction :=
  (Async.lift (ensureNotReadOnly this) ;;
   Async.call w (Item_removeBid itemId))%async.

Definition acceptBid (itemId : Z) (bid : Bid) : Async ContractTransaction :=
  (Async.lift (ensureNotReadOnly this) ;;
   Async.call w (Item_acceptBid itemId bid))%async.

Definition permit (spender : string) (itemId : Z) (sig : EIP712Signature)
  : Async ContractTransaction :=
  (Async.lift (ensureNotReadOnly this) ;;
   Async.call w (Item_permit spender itemId sig))%async.

Definition revokeApproval (itemId : Z) : Async ContractTransaction :=
  (Async.lift (ensureNotReadOnly this) ;;
   Async.call w (Item_revokeApproval itemId))%async.

Definition burn (itemId : Z) : Async ContractTransaction :=
  (Async.lift (ensureNotReadOnly this) ;;
   Async.call w (Item_burn itemId))%async.

Definition approve (to : string) (itemId : Z) : Async ContractTransaction :=
  (Async.lift (ensureNotReadOnly this) ;;
   Async.call w (Item_approve to itemId))%async.

Definition setApprovalForAll (operator : string) (approved : bool)
  : Async ContractTransaction :=
  (Async.lift (ensureNotReadOnly this) ;;
   Async.call w (Item_setApprovalForAll operator approved))%async.

Definition transferFrom (from to : string) (itemId : Z)
  : Async ContractTransaction :=
  (Async.lift (ensureNotReadOnly this) ;;
   Async.call w (Item_transferFrom from to itemId))%async.

Definition safeTransferFrom (from to : string) (itemId : Z)
  : Async ContractTransaction :=
  (Async.lift (ensureNotReadOnly this) ;;
   Async.call w (Item_safeTransferFrom from to itemId))%async.

(** *** Miscellaneous *)

Definition eip712Domain : EIP712Domain :=
  let chainId := if chainId this =? 50 then 1 else chainId this in
  {| domain_name := "Motif";
     domain_version := "1";
     domain_chainId := chainId;
     verifyingContract := itemAddress this |}.

Definition isValidBid (itemId : Z) (bid : Bid) : Async bool :=
  (isAmountValid <- Async.call w (Exchange_isValidBid itemId (amount bid)) ;;
   decimal100 <- Async.lift (Decimal.new (100 # 1)) ;;
   currentBidShares <- fetchCurrentBidShares itemId ;;
   let isSellOnShareValid :=
     BigNumber.lte (value (sellOnShare bid))
       (BigNumber.sub (value decimal100)
                      (value (creator currentBidShares))) in
   Async.ret (isAmountValid && isSellOnShareValid))%async.

Definition isValidAsk (itemId : Z) (ask : Ask) : Async bool :=
  Async.call w (Exchange_isValidBid itemId (ask_amount ask)).

(** When the reads that [isVerifiedItem] sends together settle. *)
Variable settleTime : nat -> nat.

(** The four fetch methods each send their call when invoked, so the four
    reads go out together; the hashes come back as hex text.  The
    destructuring of the result reads a missing element as [undefined]. *)
Definition isVerifiedItem (itemId : Z) (timeout : Z) : Async bool :=
  (fetched <-
     PromiseAll.all settleTime w
       [Item_tokenURI itemId; Item_tokenMetadataURI itemId;
        Item_tokenContentHashes itemId; Item_tokenMetadataHashes itemId] ;;
   let tokenURI := nth 0 fetched "undefined" in
   let metadataURI := nth 1 fetched "undefined" in
   let contentHash := nth 2 fetched "undefined" in
   let metadataHash := nth 3 fetched "undefined" in
   itemData <-
     Async.lift
       (Utils.constructItemData tokenURI metadataURI
          (Bytes.Str contentHash) (Bytes.Str metadataHash)) ;;
   Utils.isItemDataVerified w itemData timeout)%async.

End Methods.

End MotifItem.

(** * Vocabulary of the properties *)

(** [n] is the multiple of [10^-4] nearest to [x], the larger one on a tie. *)
Definition nearest4 (x : Q) (n : Z) : Prop :=
  (inject_Z n - (1 # 2) <= x * inject_Z 10000
   /\ x * inject_Z 10000 < inject_Z n + (1 # 2))%Q.

(** The share inputs the number model covers: non-negative, and small
    enough for the text of [toFixed(4)] to have at most 15 significant
    digits, so that it survives [parseFloat] unchanged. *)
Definition shareInput (x : Q) : Prop :=
  (0 <= x /\ x < inject_Z (10 ^ 11))%Q.

(** The share that truncation to four fractional digits would give. *)
Definition truncated_share (x : Q) : Z :=
  Qfloor (x * inject_Z 10000) * 10 ^ 14.

(** What [hexlify] writes for the byte [v]: two lower-case hex digits that
    read back as [v]. *)
Definition byte_hex_ok (v : Z) : bool :=
  match Bytes.hexChar (Z.shiftr (Z.land v 240) 4) ++ Bytes.hexChar (Z.land v 15) with
  | String c1 (String c2 EmptyString) =>
      Bytes.isHexDigit c1 && Bytes.isHexDigit c2
      && (Bytes.parseInt16 c1 (Some c2) =? v)
      && (Bytes.toLowerChar c1 =? c1)%char && (Bytes.toLowerChar c2 =? c2)%char
  | _ => false
  end.

(** The class [0-9a-f]. *)
Definition isLowerHexDigit (c : ascii) : bool :=
  match c with
  | "0" | "1" | "2" | "3" | "4" | "5" | "6" | "7" | "8" | "9"
  | "a" | "b" | "c" | "d" | "e" | "f" => true
  | _ => false
  end%char.

Fixpoint allLowerHex (s : string) : bool :=
  match s with
  | EmptyString => true
  | String c rest => isLowerHexDigit c && allLowerHex rest
  end.

(** The text of a 256-bit digest: [0x] and 64 lower-case hex digits. *)
Definition isDigestText (s : string) : Prop :=
  exists digits, s = "0x" ++ digits
                 /\ String.length digits = 64%nat
                 /\ allLowerHex digits = true.

(** The two verifications of a content record, one after the other: the
    second starts from the log the first has left, and only if the first
    resolved. *)
Definition verifyInSequence (w : World) (tokenURI : string)
    (contentHash : Bytes.BytesLike) (metadataURI : string)
    (metadataHash : Bytes.BytesLike) (timeout : Z) : Async bool :=
  fun log =>
    match Utils.isURIHashVerified w tokenURI contentHash timeout log with
    | (Rejected reason, log1) => (Rejected reason, log1)
    | (Resolved isTokenURIVerified, log1) =>
        match Utils.isURIHashVerified w metadataURI metadataHash timeout log1 with
        | (Rejected reason, log2) => (Rejected reason, log2)
        | (Resolved isMetadataURIVerified, log2) =>
            (Resolved (isTokenURIVerified && isMetadataURIVerified), log2)
        end
    end.

(** How many calls went out before the first promise settled. *)
Fixpoint startedBeforeSettling (log : list Event) : nat :=
  match log with
  | Request _ :: rest => S (startedBeforeSettling rest)
  | _ => O
  end.

(** A world in which every HTTP request is answered with [body]. *)
Definition servingWorld (body : Buffer.t) : World :=
  fun R _ c =>
    match c in Call R return Promise R with
    | AxiosGet _ _ => Resolved body
    | _ => Rejected "call revert exception"
    end.

(** A world in which every call times out. *)
Definition unreachableWorld : World :=
  fun R _ _ => Rejected "timeout of 10ms exceeded".

(** A record whose two URIs are both declared to hold the bytes of [abc]. *)
Definition abcRecord : ItemData :=
  {| tokenURI := "https://example.com/content";
     metadataURI := "https://example.com/metadata";
     contentHash :=
       Bytes.Str "0xba7816bf8f01cfea414140de5dae2223b00361a396177a9cb410ff61f20015ad";
     metadataHash :=
       Bytes.Str "0xba7816bf8f01cfea414140de5dae2223b00361a396177a9cb410ff61f20015ad" |}.

(** The message of [ensureNotReadOnly]. *)
Definition guardMessage : string :=
  "ensureNotReadOnly: readOnly Motif instance cannot call contract methods that require a signer.".

(** The promise is rejected with the guard's message and nothing has been
    added to the log: no call went out. *)
Definition rejectedByGuard {A} (m : Async A) : Prop :=
  forall log, m log = (Rejected guardMessage, log).

(** The method sends the call [c] and settles as the call does. *)
Definition forwards {R} (w : World) (m : Async R) (c : Call R) : Prop :=
  forall log,
    m log = (w R (log ++ [Request c])%list c,
             (log ++ [Request c; Response c])%list).

(** Every state-changing method of [this] is stopped by the guard. *)
Definition writesRejected (w : World) (this : MotifItem.t) : Prop :=
  (forall itemId tokenURI,
     rejectedByGuard (MotifItem.updateContentURI w this itemId tokenURI))
  /\ (forall itemId metadataURI,
        rejectedByGuard (MotifItem.updateMetadataURI w this itemId metadataURI))
  /\ (forall itemData bidShares,
        rejectedByGuard (MotifItem.mint w this itemData bidShares))
  /\ (forall itemData bidShares,
        rejectedByGuard (MotifItem.mintMultiple w this itemData bidShares))
  /\ (forall creator itemData bidShares sig,
        rejectedByGuard (MotifItem.mintWithSig w this creator itemData bidShares sig))
  /\ (forall itemId ask, rejectedByGuard (MotifItem.setAsk w this itemId ask))
  /\ (forall itemId bid, rejectedByGuard (MotifItem.setBid w this itemId bid))
  /\ (forall itemId, rejectedByGuard (MotifItem.removeAsk w this itemId))
  /\ (forall itemId, rejectedByGuard (MotifItem.removeBid w this itemId))
  /\ (forall itemId bid, rejectedByGuard (MotifItem.acceptBid w this itemId bid))
  /\ (forall spender itemId sig,
        rejectedByGuard (MotifItem.permit w this spender itemId sig))
  /\ (forall itemId, rejectedByGuard (MotifItem.revokeApproval w this itemId))
  /\ (forall itemId, rejectedByGuard (MotifItem.burn w this itemId))
  /\ (forall to itemId, rejectedByGuard (MotifItem.approve w this to itemId))
  /\ (forall operator approved,
        rejectedByGuard (MotifItem.setApprovalForAll w this operator approved))
  /\ (forall from to itemId,
        rejectedByGuard (MotifItem.transferFrom w this from to itemId))
  /\ (forall from to itemId,
        rejectedByGuard (MotifItem.safeTransferFrom w this from to itemId)).

(** Every fetch method goes through to its contract call. *)
Definition viewsForwarded (w : World) : Prop :=
  (forall itemId,
     forwards w (MotifItem.fetchContentHash w itemId) (Item_tokenContentHashes itemId))
  /\ (forall itemId,
        forwards w (MotifItem.fetchMetadataHash w itemId) (Item_tokenMetadataHashes itemId))
  /\ (forall itemId,
        forwards w (MotifItem.fetchTokenContract w itemId)
          (Item_tokenContractAddresses itemId))
  /\ (forall itemId,
        forwards w (MotifItem.fetchContentURI w itemId) (Item_tokenURI itemId))
  /\ (forall itemId,
        forwards w (MotifItem.fetchMetadataURI w itemId) (Item_tokenMetadataURI itemId))
  /\ (forall itemId,
        forwards w (MotifItem.fetchCreator w itemId) (Item_tokenCreators itemId))
  /\ (forall itemId,
        forwards w (MotifItem.fetchCurrentBidShares w itemId)
          (Exchange_bidSharesForToken itemId))
  /\ (forall itemId,
        forwards w (MotifItem.fetchCurrentAsk w itemId)
          (Exchange_currentAskForToken itemId))
  /\ (forall itemId bidder,
        forwards w (MotifItem.fetchCurrentBidForBidder w itemId bidder)
          (Exchange_bidForTokenBidder itemId bidder))
  /\ (forall address itemId,
        forwards w (MotifItem.fetchPermitNonce w address itemId)
          (Item_permitNonces address itemId))
  /\ (forall address,
        forwards w (MotifItem.fetchMintWithSigNonce w address)
          (Item_mintWithSigNonces address))
  /\ (forall owner,
        forwards w (MotifItem.fetchBalanceOf w owner) (Item_balanceOf owner))
  /\ (forall itemId,
        forwards w (MotifItem.fetchOwnerOf w itemId) (Item_ownerOf itemId))
  /\ (forall owner index,
        forwards w (MotifItem.fetchItemOfOwnerByIndex w owner index)
          (Item_tokenOfOwnerByIndex owner index))
  /\ forwards w (MotifItem.fetchTotalItem w) Item_totalSupply
  /\ (forall index,
        forwards w (MotifItem.fetchItemByIndex w index) (Item_tokenByIndex index))
  /\ (forall itemId,
        forwards w (MotifItem.fetchApproved w itemId) (Item_getApproved itemId))
  /\ (forall owner operator,
        forwards w (MotifItem.fetchIsApprovedForAll w owner operator)
          (Item_isApprovedForAll owner operator)).

(** The instance the test-suite builds from a [JsonRpcProvider]. *)
Definition providerInstance : MotifItem.t :=
  {| MotifItem.chainId := 50;
     MotifItem.itemAddress := "0x1D7022f5B17d2F8B695918FB48fa1089C9f85401";
     MotifItem.itemExchangeAddress := "0x1dC4c1cEFEF38a777b15aA20260a54E584b16C48";
     MotifItem.signerOrProvider := MotifItem.AProvider "http://localhost:8545";
     MotifItem.readOnly := true |}.

(** An exchange that finds every amount splittable and reports
    [currentBidShares] for every item. *)
Definition exchangeWorld (currentBidShares : BidShares) : World :=
  fun R _ c =>
    match c in Call R return Promise R with
    | Exchange_isValidBid _ _ => Resolved true
    | Exchange_bidSharesForToken _ => Resolved currentBidShares
    | _ => Rejected "call revert exception"
    end.

(** ** Vocabulary of the further properties *)

(** The value denotes exactly 32 bytes. *)
Definition is32Bytes (v : Bytes.BytesLike) : Prop :=
  exists bs, Bytes.arrayify v = Ok bs /\ List.length bs = 32%nat.

(** The string begins with [https://]. *)
Definition isHttps (uri : string) : Prop :=
  exists rest, uri = "https://" ++ rest.

(** The message of the first check that throws, if any. *)
Fixpoint firstFailure (checks : list (Result unit)) : option string :=
  match checks with
  | [] => None
  | Ok _ :: rest => firstFailure rest
  | Throw message :: _ => Some message
  end.

(** Checks run one after the other stop at the first that throws. *)
Fixpoint runChecks (checks : list (Result unit)) : Result unit :=
  match checks with
  | [] => Ok tt
  | check :: rest => (check ;; runChecks rest)%result
  end.

(** The checks of the record constructors, in their order. *)
Definition recordChecks (tokenURI metadataURI : string)
    (contentHash metadataHash : Bytes.BytesLike) : list (Result unit) :=
  [Utils.validateBytes32 contentHash; Utils.validateBytes32 metadataHash;
   Utils.validateURI tokenURI; Utils.validateURI metadataURI].

(** The message [validateAndParseAddress] throws for [address]. *)
Definition invalidAddress (address : string) : string :=
  "Invariant failed: " ++ address ++ " is not a valid address.".

(** The message of the constructor's invariant. *)
Definition constructorMessage : string :=
  "Invariant failed: Motif Constructor: itemAddress and itemExchangeAddress must both be non-null or both be null".

(** The three shares add up to one hundred percent. *)
Definition sumsTo100 (bidShares : BidShares) : Prop :=
  value (creator bidShares) + value (owner bidShares)
  + value (prevOwner bidShares) = 100 * 10 ^ 18.

(** What [mint] and [mintWithSig] check before anything is sent, in their
    order. *)
Definition mintChecks (this : MotifItem.t) (itemData : ItemData)
    (bidShares : BidShares) : list (Result unit) :=
  [MotifItem.ensureNotReadOnly this;
   Utils.validateURI (metadataURI itemData);
   Utils.validateURI (tokenURI itemData);
   Utils.validateBidShares (creator bidShares) (owner bidShares)
     (prevOwner bidShares)].

(** The promise is rejected with [reason] and no call went out. *)
Definition rejectedUnsent {A} (m : Async A) (reason : string) : Prop :=
  forall log, m log = (Rejected reason, log).

(** The message [validateURI] throws for [uri]. *)
Definition notHttps (uri : string) : string :=
  "Invariant failed: " ++ uri ++ " must begin with `https://`".

(** The gas estimate goes out first; the transaction follows only once the
    estimate has resolved, and carries [limit] of the estimate as its gas
    limit. *)
Definition estimatesThenSends (w : World) (m : Async ContractTransaction)
    (estimate : Call BigNumber.t)
    (transaction : string -> Call ContractTransaction)
    (limit : BigNumber.t -> BigNumber.t) : Prop :=
  forall log,
    let sent := (log ++ [Request estimate])%list in
    match w _ sent estimate with
    | Rejected reason =>
        m log = (Rejected reason, (sent ++ [Response estimate])%list)
    | Resolved gasEstimate =>
        let tx := transaction (BigNumber.toString (limit gasEstimate)) in
        m log
        = (w _ (sent ++ [Response estimate; Request tx])%list tx,
           (sent ++ [Response estimate; Request tx; Response tx])%list)
    end.

(** Every item has URIs that begin with [https://] and, at its own index, a
    set of shares that add up to one hundred percent. *)
Definition eachItemValid (itemData : list ItemData)
    (bidShares : list BidShares) : Prop :=
  forall index item,
    nth_error itemData index = Some item ->
    isHttps (metadataURI item) /\ isHttps (tokenURI item)
    /\ exists shares,
         nth_error bidShares index = Some shares /\ sumsTo100 shares.

(** The method forwards when the URI begins with [https://], and is stopped
    by [validateURI] before anything is sent when it does not. *)
Definition forwardsHttps {R} (w : World) (m : Async R) (c : Call R)
    (uri : string) : Prop :=
  (isHttps uri -> forwards w m c)
  /\ (~ isHttps uri -> rejectedUnsent m (notHttps uri)).

(** The state-changing methods that take no gas estimate go through to
    their contract call with the arguments as given. *)
Definition writesForwarded (w : World) (this : MotifItem.t) : Prop :=
  (forall itemId tokenURI,
     forwardsHttps w (MotifItem.updateContentURI w this itemId tokenURI)
       (Item_updateTokenURI itemId tokenURI) tokenURI)
  /\ (forall itemId metadataURI,
        forwardsHttps w (MotifItem.updateMetadataURI w this itemId metadataURI)
          (Item_updateTokenMetadataURI itemId metadataURI) metadataURI)
  /\ (forall itemId ask,
        forwards w (MotifItem.setAsk w this itemId ask) (Item_setAsk itemId ask))
  /\ (forall itemId bid,
        forwards w (MotifItem.setBid w this itemId bid) (Item_setBid itemId bid))
  /\ (forall itemId,
        forwards w (MotifItem.removeAsk w this itemId) (Item_removeAsk itemId))
  /\ (forall itemId,
        forwards w (MotifItem.removeBid w this itemId) (Item_removeBid itemId))
  /\ (forall itemId bid,
        forwards w (MotifItem.acceptBid w this itemId bid)
          (Item_acceptBid itemId bid))
  /\ (forall spender itemId sig,
        forwards w (MotifItem.permit w this spender itemId sig)
          (Item_permit spender itemId sig))
  /\ (forall itemId,
        forwards w (MotifItem.revokeApproval w this itemId)
          (Item_revokeApproval itemId))
  /\ (forall itemId,
        forwards w (MotifItem.burn w this itemId) (Item_burn itemId))
  /\ (forall to itemId,
        forwards w (MotifItem.approve w this to itemId) (Item_approve to itemId))
  /\ (forall operator approved,
        forwards w (MotifItem.setApprovalForAll w this operator approved)
          (Item_setApprovalForAll operator approved))
  /\ (forall from to itemId,
        forwards w (MotifItem.transferFrom w this from to itemId)
          (Item_transferFrom from to itemId))
  /\ (forall from to itemId,
        forwards w (MotifItem.safeTransferFrom w this from to itemId)
          (Item_safeTransferFrom from to itemId)).

(** The instance the test-suite builds from a wallet. *)
Definition signerInstance : MotifItem.t :=
  {| MotifItem.chainId := 50;
     MotifItem.itemAddress := "0x1D7022f5B17d2F8B695918FB48fa1089C9f85401";
     MotifItem.itemExchangeAddress := "0x1dC4c1cEFEF38a777b15aA20260a54E584b16C48";
     MotifItem.signerOrProvider :=
       MotifItem.ASigner "0x9b2055d370f73ec7d8a03e965129118dc8f5bf83";
     MotifItem.readOnly := false |}.

(** The four reads of [isVerifiedItem], in the order they are sent. *)
Definition verificationReads (itemId : Z) : list (Call string) :=
  [Item_tokenURI itemId; Item_tokenMetadataURI itemId;
   Item_tokenContentHashes itemId; Item_tokenMetadataHashes itemId].

(** The settling of the calls at the indices [order]. *)
Definition responses {R} (calls : list (Call R)) (order : list nat)
  : list Event :=
  flat_map (fun i => match nth_error calls i with
                     | Some c => [Response c]
                     | None => []
                     end) order.

(** * Properties *)

(** ** Decimal printing of a [BigNumber] is injective *)

Lemma to_int_not_nil (z : Z) :
  Z.to_int z <> Decimal.Pos Decimal.Nil /\ Z.to_int z <> Decimal.Neg Decimal.Nil.
Proof.
  destruct z as [|p|p]; cbn; split; try discriminate;
    intros [= H]; revert H; apply DecimalPos.Unsigned.to_uint_nonnil.
Qed.

Lemma toString_inj (a b : Z) :
  BigNumber.toString a = BigNumber.toString b -> a = b.
Proof.
  unfold BigNumber.toString. intros H.
  apply DecimalZ.to_int_inj.
  apply (f_equal NilZero.int_of_string) in H.
  destruct (to_int_not_nil a), (to_int_not_nil b).
  rewrite !NilZero.isi in H by assumption.
  now injection H.
Qed.

Lemma toString_eqb (a b : Z) :
  (BigNumber.toString a =? BigNumber.toString b)%string = (a =? b).
Proof.
  destruct (Z.eqb_spec a b) as [->|Hne].
  - apply String.eqb_refl.
  - apply String.eqb_neq. intros H. apply Hne, toString_inj, H.
Qed.

(** ** Bid shares *)

Lemma decimal100 :
  Decimal.new (100 # 1) = Ok {| value := 100 * 10 ^ 18 |}.
Proof. vm_compute. reflexivity. Qed.

Lemma validateBidShares_unfold (creator owner prevOwner : DecimalValue) :
  Utils.validateBidShares creator owner prevOwner =
  let sum := value creator + value owner + value prevOwner in
  if sum =? 100 * 10 ^ 18
  then Ok tt
  else Throw ("Invariant failed: The BidShares sum to "
              ++ BigNumber.toString sum ++ ", but they must sum to "
              ++ BigNumber.toString (100 * 10 ^ 18)).
Proof.
  unfold Utils.validateBidShares. rewrite decimal100.
  cbv beta iota delta [bindR value BigNumber.add invariant].
  rewrite toString_eqb.
  destruct (_ =? _); reflexivity.
Qed.

(** C1. [validateBidShares] succeeds exactly when the three scaled integers
    sum to [100 * 10^18]; there is no tolerance.  On any other sum it throws
    an error whose message carries the decimal text of the actual sum and of
    the expected sum [100 * 10^18]. *)
Theorem validateBidShares_exact_sum (creator owner prevOwner : DecimalValue) :
  let sum := value creator + value owner + value prevOwner in
  (Utils.validateBidShares creator owner prevOwner = Ok tt
   <-> sum = 100 * 10 ^ 18)
  /\ (sum <> 100 * 10 ^ 18 ->
      Utils.validateBidShares creator owner prevOwner =
      Throw ("Invariant failed: The BidShares sum to "
             ++ BigNumber.toString sum ++ ", but they must sum to "
             ++ "100000000000000000000")).
Proof.
  intros sum. rewrite validateBidShares_unfold. fold sum. cbv zeta.
  destruct (Z.eqb_spec sum (100 * 10 ^ 18)) as [E|E]; split.
  - tauto.
  - intros H. contradiction.
  - split; [discriminate | intros H; contradiction].
  - intros _. reflexivity.
Qed.

(** The failing case of the test-suite: 10% + 70% + 10%. *)
Example validateBidShares_90 :
  Utils.validateBidShares {| value := 10 * 10 ^ 18 |}
                          {| value := 70 * 10 ^ 18 |}
                          {| value := 10 * 10 ^ 18 |}
  = Throw "Invariant failed: The BidShares sum to 90000000000000000000, but they must sum to 100000000000000000000".
Proof. vm_compute. reflexivity. Qed.

(** ** Conversion of a share to fixed point *)

Lemma scaled_units (n : Z) :
  (inject_Z n / inject_Z (10 ^ Z.of_nat 4) * inject_Z (10 ^ 18)
   == inject_Z (n * 10 ^ 14))%Q.
Proof.
  change (10 ^ Z.of_nat 4) with 10000.
  change (10 ^ 18) with 1000000000000000000.
  change (10 ^ 14) with 100000000000000.
  unfold Qeq, Qdiv, Qmult, Qinv, inject_Z. cbn [Qnum Qden]. lia.
Qed.

Lemma new_of_units (n : Z) :
  0 <= n ->
  Decimal.new (inject_Z n / inject_Z (10 ^ Z.of_nat 4))
  = Ok {| value := n * 10 ^ 14 |}.
Proof.
  intros Hn. unfold Decimal.new.
  assert (H0 : Qle_bool 0 (inject_Z n / inject_Z (10 ^ Z.of_nat 4)) = true).
  { apply Qle_bool_iff. change (10 ^ Z.of_nat 4) with 10000.
    unfold Qle, Qdiv, Qmult, Qinv, inject_Z. cbn [Qnum Qden]. lia. }
  rewrite H0.
  assert (Hf : Qfloor (inject_Z n / inject_Z (10 ^ Z.of_nat 4)
                       * inject_Z (10 ^ 18)) = n * 10 ^ 14).
  { rewrite (Qfloor_comp _ _ (scaled_units n)). apply Qfloor_Z. }
  rewrite Hf.
  assert (He : Qeq_bool (inject_Z (n * 10 ^ 14))
                 (inject_Z n / inject_Z (10 ^ Z.of_nat 4) * inject_Z (10 ^ 18))
               = true).
  { apply Qeq_bool_iff. symmetry. apply scaled_units. }
  rewrite He. reflexivity.
Qed.

Lemma round_bounds (q : Q) :
  (inject_Z (Qfloor (q + (1 # 2))) - (1 # 2) <= q
   /\ q < inject_Z (Qfloor (q + (1 # 2))) + (1 # 2))%Q.
Proof.
  pose proof (Qfloor_le (q + (1 # 2))) as Hl.
  pose proof (Qlt_floor (q + (1 # 2))) as Hu.
  rewrite inject_Z_plus in Hu.
  split.
  - apply (Qplus_le_l _ _ (1 # 2)). ring_simplify. ring_simplify in Hl.
    exact Hl.
  - apply (Qplus_lt_l _ _ (1 # 2)).
    setoid_replace (inject_Z (Qfloor (q + (1 # 2))) + (1 # 2) + (1 # 2))%Q
      with (inject_Z (Qfloor (q + (1 # 2))) + inject_Z 1)%Q by ring.
    exact Hu.
Qed.

Lemma round_unique (q : Q) (n : Z) :
  (inject_Z n - (1 # 2) <= q)%Q -> (q < inject_Z n + (1 # 2))%Q ->
  Qfloor (q + (1 # 2)) = n.
Proof.
  intros Hl Hu.
  assert (L : n <= Qfloor (q + (1 # 2))).
  { rewrite <- (Qfloor_Z n) at 1. apply Qfloor_resp_le.
    apply (Qplus_le_l _ _ (1 # 2)) in Hl. ring_simplify in Hl.
    ring_simplify. exact Hl. }
  assert (U : Qfloor (q + (1 # 2)) < n + 1).
  { rewrite Zlt_Qlt. eapply Qle_lt_trans; [apply Qfloor_le|].
    rewrite inject_Z_plus.
    apply (Qplus_lt_l _ _ (1 # 2)) in Hu.
    setoid_replace (inject_Z n + inject_Z 1)%Q
      with (inject_Z n + (1 # 2) + (1 # 2))%Q by ring.
    exact Hu. }
  lia.
Qed.

Lemma round_nonneg (q : Q) : (0 <= q)%Q -> 0 <= Qfloor (q + (1 # 2)).
Proof.
  intros H. change 0 with (Qfloor 0). apply Qfloor_resp_le.
  rewrite <- (Qplus_0_r 0). apply Qplus_le_compat; [exact H | discriminate].
Qed.

Lemma makeDecimal_nonneg (x : Q) :
  (0 <= x)%Q ->
  Utils.makeDecimal x
  = Ok {| value := Qfloor (x * inject_Z 10000 + (1 # 2)) * 10 ^ 14 |}.
Proof.
  intros Hx. unfold Utils.makeDecimal, JSNumber.toFixed.
  apply Qle_bool_iff in Hx as Hb. rewrite Hb.
  unfold JSNumber.parseFloat. cbn [JSNumber.negative JSNumber.units JSNumber.fractionDigits].
  change (10 ^ Z.of_nat 4) with 10000 at 1.
  apply new_of_units, round_nonneg.
  apply Qmult_le_0_compat; [exact Hx | discriminate].
Qed.

Lemma makeDecimal_nearest (x : Q) (n : Z) :
  (0 <= x)%Q -> nearest4 x n ->
  Utils.makeDecimal x = Ok {| value := n * 10 ^ 14 |}.
Proof.
  intros Hx [Hl Hu]. rewrite (makeDecimal_nonneg x Hx).
  now rewrite (round_unique _ n Hl Hu).
Qed.

Lemma constructBidShares_of_units (a b c : Q) (na nb nc : Z) :
  Utils.makeDecimal a = Ok {| value := na * 10 ^ 14 |} ->
  Utils.makeDecimal b = Ok {| value := nb * 10 ^ 14 |} ->
  Utils.makeDecimal c = Ok {| value := nc * 10 ^ 14 |} ->
  Utils.constructBidShares a b c =
  if na + nb + nc =? 1000000
  then Ok {| owner := {| value := nb * 10 ^ 14 |};
             prevOwner := {| value := nc * 10 ^ 14 |};
             creator := {| value := na * 10 ^ 14 |} |}
  else Throw ("Invariant failed: The BidShares sum to "
              ++ BigNumber.toString ((na + nb + nc) * 10 ^ 14)
              ++ ", but they must sum to 100000000000000000000").
Proof.
  intros Ha Hb Hc. unfold Utils.constructBidShares.
  rewrite Ha, Hb, Hc. cbn [bindR].
  rewrite validateBidShares_unfold. cbn [value]. cbv zeta.
  replace (na * 10 ^ 14 + nb * 10 ^ 14 + nc * 10 ^ 14)
    with ((na + nb + nc) * 10 ^ 14) by ring.
  destruct (Z.eqb_spec (na + nb + nc) 1000000) as [E|E].
  - rewrite E. reflexivity.
  - destruct (Z.eqb_spec ((na + nb + nc) * 10 ^ 14) (100 * 10 ^ 18)) as [E'|E'].
    + exfalso. apply E. change (100 * 10 ^ 18) with (1000000 * 10 ^ 14) in E'.
      apply Z.mul_cancel_r in E'; [exact E' | discriminate].
    + reflexivity.
Qed.

(** C2, as stated, fails: [5/128], [5/128] and [6395/64] (the doubles
    0.0390625, 0.0390625 and 99.921875) are non-negative and sum to exactly
    100, yet [toFixed(4)] turns them into 0.0391, 0.0391 and 99.9219, whose
    scaled sum is [100.0001 * 10^18], and [validateBidShares] throws. *)
Lemma constructBidShares_real_sum_100_fails :
  (0 <= 5 # 128)%Q /\ (0 <= 6395 # 64)%Q
  /\ ((5 # 128) + (5 # 128) + (6395 # 64) == 100 # 1)%Q
  /\ Utils.constructBidShares (5 # 128) (5 # 128) (6395 # 64)
     = Throw "Invariant failed: The BidShares sum to 100000100000000000000, but they must sum to 100000000000000000000".
Proof.
  split; [discriminate|]. split; [discriminate|]. split; [reflexivity|].
  vm_compute. reflexivity.
Qed.

Lemma exact_sum_units (a b c : Q) (na nb nc : Z) :
  (a * inject_Z 10000 == inject_Z na)%Q ->
  (b * inject_Z 10000 == inject_Z nb)%Q ->
  (c * inject_Z 10000 == inject_Z nc)%Q ->
  (a + b + c == 100 # 1)%Q ->
  na + nb + nc = 1000000.
Proof.
  intros Ha Hb Hc Hsum. apply inject_Z_injective.
  rewrite !inject_Z_plus, <- Ha, <- Hb, <- Hc.
  setoid_replace (a * inject_Z 10000 + b * inject_Z 10000 + c * inject_Z 10000)%Q
    with ((a + b + c) * inject_Z 10000)%Q by ring.
  rewrite Hsum. reflexivity.
Qed.

(** C2, amended.  What decides the outcome is the sum of the three inputs
    after each has been rounded to four fractional digits: when the rounded
    values [na/10^4], [nb/10^4], [nc/10^4] sum to exactly 100 the shares are
    built (and pass [validateBidShares]); when they do not,
    [constructBidShares] throws with the rounded sum in the message.  In
    particular inputs that already are multiples of [10^-4] and sum to 100
    succeed. *)
Theorem constructBidShares_rounded_sum (a b c : Q) (na nb nc : Z) :
  shareInput a -> shareInput b -> shareInput c ->
  nearest4 a na -> nearest4 b nb -> nearest4 c nc ->
  let shares := {| owner := {| value := nb * 10 ^ 14 |};
                   prevOwner := {| value := nc * 10 ^ 14 |};
                   creator := {| value := na * 10 ^ 14 |} |} in
  (na + nb + nc = 1000000 ->
   Utils.constructBidShares a b c = Ok shares
   /\ Utils.validateBidShares (creator shares) (owner shares)
        (prevOwner shares) = Ok tt)
  /\ (na + nb + nc <> 1000000 ->
      Utils.constructBidShares a b c
      = Throw ("Invariant failed: The BidShares sum to "
               ++ BigNumber.toString ((na + nb + nc) * 10 ^ 14)
               ++ ", but they must sum to 100000000000000000000"))
  /\ ((a * inject_Z 10000 == inject_Z na)%Q ->
      (b * inject_Z 10000 == inject_Z nb)%Q ->
      (c * inject_Z 10000 == inject_Z nc)%Q ->
      (a + b + c == 100 # 1)%Q ->
      Utils.constructBidShares a b c = Ok shares).
Proof.
  intros [Ha _] [Hb _] [Hc _] Na Nb Nc shares. subst shares.
  rewrite (constructBidShares_of_units a b c na nb nc)
    by (apply makeDecimal_nearest; assumption).
  cbn [creator owner prevOwner].
  split; [|split].
  - intros E. apply Z.eqb_eq in E as E'. rewrite E'. split; [reflexivity|].
    rewrite validateBidShares_unfold. cbn [value]. cbv zeta.
    replace (na * 10 ^ 14 + nb * 10 ^ 14 + nc * 10 ^ 14)
      with ((na + nb + nc) * 10 ^ 14) by ring.
    rewrite E. reflexivity.
  - intros E. apply Z.eqb_neq in E. rewrite E. reflexivity.
  - intros Ea Eb Ec Hsum.
    rewrite (exact_sum_units a b c na nb nc Ea Eb Ec Hsum). reflexivity.
Qed.

(** The shares of the test-suite, [constructBidShares(10, 90, 0)]. *)
Lemma constructBidShares_rounded_sum_witness :
  Utils.constructBidShares (10 # 1) (90 # 1) (0 # 1)
  = Ok {| owner := {| value := 900000 * 10 ^ 14 |};
          prevOwner := {| value := 0 * 10 ^ 14 |};
          creator := {| value := 100000 * 10 ^ 14 |} |}.
Proof.
  refine (proj1 (proj1 (constructBidShares_rounded_sum
            (10 # 1) (90 # 1) (0 # 1) 100000 900000 0 _ _ _ _ _ _) eq_refl));
    split; vm_compute; (discriminate || reflexivity).
Defined.

(** C3, as stated, fails: [3/64] (the double 0.046875) becomes 0.0469, not
    the truncated 0.0468. *)
Lemma makeDecimal_does_not_truncate :
  Utils.makeDecimal (3 # 64) = Ok {| value := 46900000000000000 |}
  /\ truncated_share (3 # 64) = 46800000000000000
  /\ Utils.makeDecimal (3 # 64) <> Ok {| value := truncated_share (3 # 64) |}.
Proof.
  split; [vm_compute; reflexivity|]. split; [vm_compute; reflexivity|].
  vm_compute. discriminate.
Qed.

(** C3, amended.  A share input [x] (non-negative, below [10^11]) is
    reduced to four fractional digits by rounding to the nearest multiple
    of [10^-4] (the larger one on a tie), and that multiple [n / 10^4] is
    stored as [n * 10^14]; this is the value [constructBidShares] gives the
    share, whichever of the creator, owner and previous-owner positions
    [x] is passed in, and [constructBid] gives [sellOnShare]. *)
Theorem share_conversion_rounds_to_nearest (x : Q) :
  shareInput x ->
  exists n : Z,
    nearest4 x n
    /\ Utils.makeDecimal x = Ok {| value := n * 10 ^ 14 |}
    /\ (forall o p shares,
          Utils.constructBidShares x o p = Ok shares ->
          creator shares = {| value := n * 10 ^ 14 |})
    /\ (forall c p shares,
          Utils.constructBidShares c x p = Ok shares ->
          owner shares = {| value := n * 10 ^ 14 |})
    /\ (forall c o shares,
          Utils.constructBidShares c o x = Ok shares ->
          prevOwner shares = {| value := n * 10 ^ 14 |})
    /\ (forall getAddress c a b r bid,
          Utils.constructBid getAddress c a b r x = Ok bid ->
          sellOnShare bid = {| value := n * 10 ^ 14 |}).
Proof.
  intros [Hx _]. exists (Qfloor (x * inject_Z 10000 + (1 # 2))).
  pose proof (makeDecimal_nonneg x Hx) as Hm.
  split; [apply round_bounds|]. split; [exact Hm|].
  split; [|split; [|split]].
  - intros o p shares. unfold Utils.constructBidShares. rewrite Hm.
    cbn [bindR].
    destruct (Utils.makeDecimal o); [|discriminate].
    destruct (Utils.makeDecimal p); [|discriminate].
    cbn [bindR]. destruct (Utils.validateBidShares _ _ _); [|discriminate].
    cbn [bindR]. intros [= <-]. reflexivity.
  - intros c p shares. unfold Utils.constructBidShares.
    destruct (Utils.makeDecimal c); [|discriminate].
    cbn [bindR]. rewrite Hm. cbn [bindR].
    destruct (Utils.makeDecimal p); [|discriminate].
    cbn [bindR]. destruct (Utils.validateBidShares _ _ _); [|discriminate].
    cbn [bindR]. intros [= <-]. reflexivity.
  - intros c o shares. unfold Utils.constructBidShares.
    destruct (Utils.makeDecimal c); [|discriminate].
    destruct (Utils.makeDecimal o); [|discriminate].
    cbn [bindR]. rewrite Hm. cbn [bindR].
    destruct (Utils.validateBidShares _ _ _); [|discriminate].
    cbn [bindR]. intros [= <-]. reflexivity.
  - intros getAddress c a b r bid. unfold Utils.constructBid. rewrite Hm.
    destruct (Utils.rethrow _ (Utils.validateAndParseAddress getAddress c));
      [|discriminate].
    destruct (Utils.rethrow _ (Utils.validateAndParseAddress getAddress b));
      [|discriminate].
    destruct (Utils.rethrow _ (Utils.validateAndParseAddress getAddress r));
      [|discriminate].
    cbn [bindR]. intros [= <-]. reflexivity.
Qed.

Lemma share_conversion_rounds_to_nearest_witness :
  exists n : Z,
    nearest4 (3 # 64) n
    /\ Utils.makeDecimal (3 # 64) = Ok {| value := n * 10 ^ 14 |}
    /\ (forall o p shares,
          Utils.constructBidShares (3 # 64) o p = Ok shares ->
          creator shares = {| value := n * 10 ^ 14 |})
    /\ (forall c p shares,
          Utils.constructBidShares c (3 # 64) p = Ok shares ->
          owner shares = {| value := n * 10 ^ 14 |})
    /\ (forall c o shares,
          Utils.constructBidShares c o (3 # 64) = Ok shares ->
          prevOwner shares = {| value := n * 10 ^ 14 |})
    /\ (forall getAddress c a b r bid,
          Utils.constructBid getAddress c a b r (3 # 64) = Ok bid ->
          sellOnShare bid = {| value := n * 10 ^ 14 |}).
Proof.
  apply (share_conversion_rounds_to_nearest (3 # 64)).
  split; vm_compute; (discriminate || reflexivity).
Defined.

(** ** URIs *)

Lemma literal_spec (lit s rest : string) :
  RegExp.literal lit s = Some rest <-> s = lit ++ rest.
Proof.
  revert s. induction lit as [|a lit IH]; intros s; cbn.
  - split; [intros [= ->]; reflexivity | intros ->; reflexivity].
  - destruct s as [|b s]; [split; discriminate|].
    destruct (Ascii.eqb_spec a b) as [->|Hne].
    + rewrite IH. split; [intros ->; reflexivity | intros [= ->]; reflexivity].
    + split; [discriminate | intros [= E _]; congruence].
Qed.

(** C6. [validateURI] succeeds exactly on the strings that begin with
    [https://]; on every other string it throws the insecure-URI invariant
    error, which quotes the string. *)
Theorem validateURI_https_prefix (uri : string) :
  (Utils.validateURI uri = Ok tt <-> exists rest, uri = "https://" ++ rest)
  /\ ((forall rest, uri <> "https://" ++ rest) ->
      Utils.validateURI uri
      = Throw ("Invariant failed: " ++ uri ++ " must begin with `https://`")).
Proof.
  unfold Utils.validateURI, RegExp.match_https.
  destruct (RegExp.literal "https://" uri) as [rest|] eqn:E.
  - apply literal_spec in E. split.
    + split; [intros _; now exists rest | reflexivity].
    + intros H. now destruct (H rest).
  - split.
    + split; [discriminate|]. intros [rest Hr]. apply literal_spec in Hr. congruence.
    + reflexivity.
Qed.

Example validateURI_https_example :
  Utils.validateURI "https://example.com" = Ok tt.
Proof. reflexivity. Qed.

Example validateURI_http_example :
  Utils.validateURI "http://example.com"
  = Throw "Invariant failed: http://example.com must begin with `https://`".
Proof. reflexivity. Qed.

(** ** Byte strings *)

(** A property of the integers below [k], checked by running through
    them. *)
Lemma range_ind (k : nat) (P : Z -> bool) :
  forallb P (map Z.of_nat (seq 0 k)) = true ->
  forall v, 0 <= v < Z.of_nat k -> P v = true.
Proof.
  intros H v Hv. rewrite forallb_forall in H. apply H.
  apply in_map_iff. exists (Z.to_nat v). split; [lia|]. apply in_seq. lia.
Qed.

Lemma byte_hex_ok_all v : 0 <= v < 256 -> byte_hex_ok v = true.
Proof. apply (range_ind 256). vm_compute. reflexivity. Qed.

Lemma isBytes_cons v a : Bytes.isBytes (v :: a) = true <-> 0 <= v < 256 /\ Bytes.isBytes a = true.
Proof. unfold Bytes.isBytes. cbn. rewrite !andb_true_iff, Z.leb_le, Z.ltb_lt. tauto. Qed.

Lemma append_assoc (a b c : string) : (a ++ b) ++ c = a ++ (b ++ c).
Proof. induction a as [|x a IH]; cbn; [reflexivity | now rewrite IH]. Qed.

Lemma hexlifyBytes_spec (a : list Z) :
  Bytes.isBytes a = true ->
  Bytes.allHexDigits (Bytes.hexlifyBytes a) = true
  /\ String.length (Bytes.hexlifyBytes a) = (2 * List.length a)%nat
  /\ Bytes.parsePairs (Bytes.hexlifyBytes a) = a
  /\ Bytes.toLowerCase (Bytes.hexlifyBytes a) = Bytes.hexlifyBytes a.
Proof.
  induction a as [|v a IH]; intros H.
  - repeat split.
  - apply isBytes_cons in H as [Hv Ha]. destruct (IH Ha) as (I1 & I2 & I3 & I4).
    pose proof (byte_hex_ok_all v Hv) as Hok. unfold byte_hex_ok in Hok.
    cbn [Bytes.hexlifyBytes]. rewrite <- append_assoc.
    destruct (Bytes.hexChar _ ++ Bytes.hexChar _) as [|c1 [|c2 [|]]]; try discriminate.
    rewrite !andb_true_iff in Hok. destruct Hok as ((((H1 & H2) & H3) & H4) & H5).
    apply Z.eqb_eq in H3. apply Ascii.eqb_eq in H4, H5.
    cbn [append Bytes.allHexDigits String.length Bytes.parsePairs Bytes.toLowerCase List.length].
    rewrite H1, H2, I1, I2, I3, I4, H3, H4, H5. repeat split. lia.
Qed.

Lemma parsePairs_length_aux (hex : string) :
  (Z.of_nat (List.length (Bytes.parsePairs hex)) = (Z.of_nat (String.length hex) + 1) / 2)
  /\ forall c, Z.of_nat (List.length (Bytes.parsePairs (String c hex))) = (Z.of_nat (String.length (String c hex)) + 1) / 2.
Proof.
  induction hex as [|d hex [IH1 IH2]].
  - split; [reflexivity | intros c; reflexivity].
  - split; [apply IH2|]. intros c.
    cbn [Bytes.parsePairs List.length String.length].
    rewrite !Nat2Z.inj_succ, IH1. Z.div_mod_to_equations. lia.
Qed.

Lemma parsePairs_length (hex : string) :
  Z.of_nat (List.length (Bytes.parsePairs hex)) = (Z.of_nat (String.length hex) + 1) / 2.
Proof. apply parsePairs_length_aux. Qed.

Lemma substring_all (s : string) : substring 0 (String.length s) s = s.
Proof. induction s as [|c s IH]; cbn; [reflexivity | now rewrite IH]. Qed.

Lemma isHexString_inv (s : string) :
  Bytes.isHexString s = true ->
  exists digits, s = String "0" (String "x" digits) /\ Bytes.allHexDigits digits = true.
Proof.
  destruct s as [|a [|b digits]]; cbn; try discriminate.
  - destruct a as [[] [] [] [] [] [] [] []]; discriminate.
  - destruct a as [[] [] [] [] [] [] [] []]; try discriminate.
    destruct b as [[] [] [] [] [] [] [] []]; try discriminate.
    intros H. now exists digits.
Qed.

Lemma validateBytes32_Str (s : string) :
  Utils.validateBytes32 (Bytes.Str s) = Ok tt
  <-> exists bs, Bytes.arrayify (Bytes.Str s) = Ok bs /\ List.length bs = 32%nat.
Proof.
  unfold Utils.validateBytes32, Bytes.hexDataLength, Bytes.arrayify.
  destruct (Bytes.isHexString s) eqn:Hhex; cbn [negb orb bindR].
  - apply isHexString_inv in Hhex as (digits & -> & Hd).
    unfold Bytes.strlen. cbn [String.length].
    replace (S (S (String.length digits)) - 2)%nat with (String.length digits) by lia.
    cbn [substring]. rewrite substring_all.
    pose proof (parsePairs_length digits) as HL.
    destruct (Z.odd (Z.of_nat (S (S (String.length digits))))) eqn:Hodd; cbn [bindR].
    + split; [discriminate | intros (bs & [=] & _)].
    + assert (Hev : Z.even (Z.of_nat (String.length digits)) = true).
      { rewrite !Nat2Z.inj_succ, !Z.odd_succ_succ in Hodd.
        now rewrite <- Z.negb_odd, Hodd. }
      apply Z.even_spec in Hev as [k Hk].
      destruct (Z.eqb_spec ((Z.of_nat (S (S (String.length digits))) - 2) / 2) 32) as [E|E].
      * split; [intros _|reflexivity]. eexists; split; [reflexivity|]. Z.div_mod_to_equations. lia.
      * split; [discriminate|]. intros (bs & [= <-] & Hlen). exfalso. apply E. Z.div_mod_to_equations. lia.
  - split; [discriminate | intros (bs & [=] & _)].
Qed.

Lemma validateBytes32_Arr (a : list Z) :
  Utils.validateBytes32 (Bytes.Arr a) = Ok tt
  <-> exists bs, Bytes.arrayify (Bytes.Arr a) = Ok bs /\ List.length bs = 32%nat.
Proof.
  unfold Utils.validateBytes32, Bytes.hexlify, Bytes.arrayify.
  destruct (Bytes.isBytes a) eqn:Hb; cbn [bindR].
  - destruct (hexlifyBytes_spec a Hb) as (H1 & H2 & _ & _).
    unfold Bytes.hexDataLength, Bytes.strlen.
    change ("0x" ++ Bytes.hexlifyBytes a) with (String "0" (String "x" (Bytes.hexlifyBytes a))).
    cbn [Bytes.isHexString String.length]. rewrite H1, H2. cbn [negb orb].
    assert (Hodd : Z.odd (Z.of_nat (S (S (2 * List.length a)))) = false).
    { rewrite <- Z.negb_even. replace (Z.of_nat (S (S (2 * List.length a)))) with (2 * (Z.of_nat (List.length a) + 1)) by lia.
      now rewrite Z.even_mul. }
    rewrite Hodd. cbn [bindR].
    destruct (Z.eqb_spec ((Z.of_nat (S (S (2 * List.length a))) - 2) / 2) 32) as [E|E].
    + split; [intros _|reflexivity]. exists a. split; [reflexivity|]. Z.div_mod_to_equations. lia.
    + split; [discriminate|]. intros (bs & [= <-] & Hlen). exfalso. apply E. Z.div_mod_to_equations. lia.
  - split; [discriminate | intros (bs & [=] & _)].
Qed.

Lemma validateBytes32_arrayify (v : Bytes.BytesLike) :
  Utils.validateBytes32 v = Ok tt
  <-> exists bs, Bytes.arrayify v = Ok bs /\ List.length bs = 32%nat.
Proof.
  destruct v; [apply validateBytes32_Str | apply validateBytes32_Arr].
Qed.

(** C7. [validateBytes32] succeeds exactly on the values that normalise
    ([arrayify]) to 32 raw bytes, whether they are written as a 0x-prefixed
    hex string or as a byte array: the two encodings of the same bytes are
    accepted or refused together.  Every other input, in particular one of
    31 or 33 bytes, makes it throw. *)
Theorem validateBytes32_iff_32_bytes (v : Bytes.BytesLike) :
  (Utils.validateBytes32 v = Ok tt
   <-> exists bs, Bytes.arrayify v = Ok bs /\ List.length bs = 32%nat)
  /\ ((forall bs, Bytes.arrayify v = Ok bs -> List.length bs <> 32%nat) ->
      exists m, Utils.validateBytes32 v = Throw m)
  /\ (forall a h, v = Bytes.Arr a -> Bytes.hexlify v = Ok h ->
      Bytes.arrayify (Bytes.Str h) = Ok a
      /\ (Utils.validateBytes32 (Bytes.Str h) = Ok tt
          <-> Utils.validateBytes32 (Bytes.Arr a) = Ok tt)).
Proof.
  split; [apply validateBytes32_arrayify|]. split.
  - intros H. destruct (Utils.validateBytes32 v) as [[]|m] eqn:E.
    + apply validateBytes32_arrayify in E as (bs & Hbs & Hlen).
      now destruct (H bs Hbs).
    + now exists m.
  - intros a h -> Hh. cbn [Bytes.hexlify] in Hh.
    destruct (Bytes.isBytes a) eqn:Hb; [|discriminate]. injection Hh as <-.
    destruct (hexlifyBytes_spec a Hb) as (H1 & H2 & H3 & _).
    assert (Harr : Bytes.arrayify (Bytes.Str ("0x" ++ Bytes.hexlifyBytes a)) = Ok a).
    { unfold Bytes.arrayify, Bytes.strlen.
      change ("0x" ++ Bytes.hexlifyBytes a)
        with (String "0" (String "x" (Bytes.hexlifyBytes a))).
      cbn [Bytes.isHexString String.length]. rewrite H1, H2.
      replace (Z.of_nat (S (S (2 * List.length a))))
        with (2 * (Z.of_nat (List.length a) + 1)) by lia.
      rewrite <- Z.negb_even, Z.even_mul. cbn [Z.even orb negb].
      replace (S (S (2 * List.length a)) - 2)%nat with (2 * List.length a)%nat by lia.
      cbn [substring]. rewrite <- H2, substring_all, H3. reflexivity. }
    split; [exact Harr|].
    rewrite !validateBytes32_arrayify.
    change (String "0" (String "x" (Bytes.hexlifyBytes a)))
      with ("0x" ++ Bytes.hexlifyBytes a).
    rewrite Harr. cbn [Bytes.arrayify]. rewrite Hb.
    reflexivity.
Qed.

Example validateBytes32_31_bytes :
  Utils.validateBytes32 (Bytes.Arr (repeat 1 31))
  = Throw "Invariant failed: value is not a length 32 byte array".
Proof. vm_compute. reflexivity. Qed.

Example validateBytes32_33_bytes :
  Utils.validateBytes32 (Bytes.Arr (repeat 1 33))
  = Throw "Invariant failed: value is not a length 32 byte array".
Proof. vm_compute. reflexivity. Qed.

Example validateBytes32_32_bytes :
  Utils.validateBytes32 (Bytes.Arr (repeat 171 32)) = Ok tt
  /\ Utils.validateBytes32
       (Bytes.Str "0xABABABABabababababababababababababababababababababababababababab")
     = Ok tt.
Proof. split; vm_compute; reflexivity. Qed.

(** ** Digests *)

Lemma lowerHex_isHexDigit c : isLowerHexDigit c = true -> Bytes.isHexDigit c = true.
Proof. destruct c as [[] [] [] [] [] [] [] []]; try discriminate; reflexivity. Qed.

Lemma hexDigit_lower (n : Z) :
  0 <= n < 16 -> isLowerHexDigit (Buffer.hexDigit n) = true.
Proof.
  apply (range_ind 16 (fun n => isLowerHexDigit (Buffer.hexDigit n))).
  vm_compute. reflexivity.
Qed.

Lemma toString_hex_digits (b : Buffer.t) :
  allLowerHex (Buffer.toString_hex b) = true.
Proof.
  induction b as [|x b IH]; [reflexivity|].
  cbn [Buffer.toString_hex allLowerHex].
  pose proof (Byte.to_N_bounded x) as Hx.
  rewrite !hexDigit_lower, IH; [reflexivity| |].
  - apply Z.mod_pos_bound. lia.
  - split; [apply Z.div_pos; lia | apply Z.div_lt_upper_bound; lia].
Qed.

Lemma allLowerHex_allHexDigits s : allLowerHex s = true -> Bytes.allHexDigits s = true.
Proof.
  induction s as [|c s IH]; [reflexivity|]. cbn. rewrite !andb_true_iff.
  intros [H1 H2]. split; [now apply lowerHex_isHexDigit | now apply IH].
Qed.

Lemma hexDigit_not_space c : Bytes.isHexDigit c = true -> Sjcl.isWhitespace c = false.
Proof. destruct c as [[] [] [] [] [] [] [] []]; try discriminate; reflexivity. Qed.

Lemma hexDigit_not_x c : Bytes.isHexDigit c = true -> (c =? "x")%char = false.
Proof. destruct c as [[] [] [] [] [] [] [] []]; try discriminate; reflexivity. Qed.

Lemma strip_digits (s : string) : Bytes.allHexDigits s = true -> Sjcl.strip s = s.
Proof.
  induction s as [|c s IH]; [reflexivity|].
  cbn [Bytes.allHexDigits]. rewrite andb_true_iff. intros [Hc Hs].
  cbn [Sjcl.strip]. rewrite (hexDigit_not_space c Hc).
  destruct s as [|d s']; [reflexivity|].
  cbn [Bytes.allHexDigits] in Hs. apply andb_true_iff in Hs as Hs'. destruct Hs' as [Hd _].
  rewrite (hexDigit_not_x d Hd), andb_false_r.
  now rewrite (IH Hs).
Qed.

Lemma toBits_prefixed (digits : string) :
  Sjcl.codec_hex_toBits ("0x" ++ digits) = Sjcl.codec_hex_toBits digits.
Proof.
  unfold Sjcl.codec_hex_toBits.
  change ("0x" ++ digits) with (String "0" (String "x" digits)).
  cbn [Sjcl.strip]. reflexivity.
Qed.

Lemma fromBits_spec (k : nat) :
  forall arr : Sjcl.bitArray,
    List.length arr = (4 * k)%nat ->
    String.length (Sjcl.codec_hex_fromBits arr) = k
    /\ allLowerHex (Sjcl.codec_hex_fromBits arr) = true.
Proof.
  induction k as [|k IH]; intros arr Hlen.
  - destruct arr; [split; reflexivity | discriminate].
  - destruct arr as [|b3 [|b2 [|b1 [|b0 rest]]]]; try (cbn in Hlen; lia).
    assert (Hr : List.length rest = (4 * k)%nat) by (cbn in Hlen; lia).
    destruct (IH rest Hr) as [I1 I2].
    cbn [Sjcl.codec_hex_fromBits String.length allLowerHex].
    rewrite I1, I2, hexDigit_lower; [split; reflexivity|].
    destruct b3, b2, b1, b0; cbn; lia.
Qed.

Lemma ZToBits_length (n : nat) (z : Z) : List.length (Sjcl.ZToBits n z) = n.
Proof. unfold Sjcl.ZToBits. now rewrite length_map, length_rev, length_seq. Qed.

Lemma hash_length (data : Sjcl.bitArray) :
  List.length (Sjcl.hash_sha256_hash data) = 256%nat.
Proof.
  unfold Sjcl.hash_sha256_hash.
  destruct (Sjcl.digestWords data) as [[[[[[[a b] c] d] e] f] g] h].
  cbn [flat_map]. rewrite !length_app, !ZToBits_length. reflexivity.
Qed.

Lemma digest_text (data : Sjcl.bitArray) :
  isDigestText ("0x" ++ Sjcl.codec_hex_fromBits (Sjcl.hash_sha256_hash data)).
Proof.
  destruct (fromBits_spec 64 (Sjcl.hash_sha256_hash data) (hash_length data)) as [H1 H2].
  eexists. split; [reflexivity|]. split; assumption.
Qed.

(** C9. The two digest entry points agree: hashing the 0x-prefixed hex text
    of a buffer with [sha256FromHexString] gives exactly the string
    [sha256FromBuffer] gives for the buffer; and whatever either returns is
    [0x] followed by the 64 lower-case hex digits of a 256-bit digest. *)
Theorem sha256_entry_points_agree (b : Buffer.t) :
  Utils.sha256FromHexString ("0x" ++ Buffer.toString_hex b)
  = Ok (Utils.sha256FromBuffer b)
  /\ isDigestText (Utils.sha256FromBuffer b)
  /\ (forall data, Bytes.isHexString data = true ->
      exists digest, Utils.sha256FromHexString data = Ok digest
                     /\ isDigestText digest).
Proof.
  split; [|split].
  - unfold Utils.sha256FromHexString, Utils.sha256FromBuffer.
    change ("0x" ++ Buffer.toString_hex b)
      with (String "0" (String "x" (Buffer.toString_hex b))) at 1.
    cbn [Bytes.isHexString].
    rewrite (allLowerHex_allHexDigits _ (toString_hex_digits b)). cbn [negb].
    change (String "0" (String "x" (Buffer.toString_hex b)))
      with ("0x" ++ Buffer.toString_hex b).
    now rewrite toBits_prefixed.
  - apply digest_text.
  - intros data H. unfold Utils.sha256FromHexString. rewrite H. cbn [negb].
    eexists. split; [reflexivity | apply digest_text].
Qed.

(** The precomputed round keys and initial state are those of FIPS 180-4. *)
Example sha256_constants :
  nth 0 Sjcl.K 0 = 0x428a2f98 /\ nth 63 Sjcl.K 0 = 0xc67178f2
  /\ List.length Sjcl.K = 64%nat
  /\ nth 0 Sjcl.init 0 = 0x6a09e667 /\ nth 7 Sjcl.init 0 = 0x5be0cd19.
Proof. repeat split. Qed.

(** The FIPS 180-4 test vectors, through both entry points. *)
Example sha256_abc :
  Utils.sha256FromBuffer (Buffer.from "abc")
  = "0xba7816bf8f01cfea414140de5dae2223b00361a396177a9cb410ff61f20015ad"
  /\ Utils.sha256FromHexString "0x616263"
     = Ok "0xba7816bf8f01cfea414140de5dae2223b00361a396177a9cb410ff61f20015ad".
Proof. split; vm_compute; reflexivity. Qed.

Example sha256_empty :
  Utils.sha256FromBuffer []
  = "0xe3b0c44298fc1c149afbf4c8996fb92427ae41e4649b934ca495991b7852b855".
Proof. vm_compute. reflexivity. Qed.

Example sha256_two_blocks :
  Utils.sha256FromBuffer
    (Buffer.from "abcdbcdecdefdefgefghfghighijhijkijkljklmklmnlmnomnopnopq")
  = "0x248d6a61d20638b8e5c026930c3e6039a33ce45964ff2167f6ecedd419db06c1".
Proof. vm_compute. reflexivity. Qed.

(** ** Verification of a URI against a hash *)

Lemma validateURI_cases (uri : string) :
  Utils.validateURI uri = Ok tt
  \/ Utils.validateURI uri
     = Throw ("Invariant failed: " ++ uri ++ " must begin with `https://`").
Proof.
  unfold Utils.validateURI. destruct (RegExp.match_https uri); [now left | now right].
Qed.

Lemma isURIHashVerified_unfold (w : World) (uri : string)
    (expectedHash : Bytes.BytesLike) (timeout : Z) (log : list Event) :
  Utils.isURIHashVerified w uri expectedHash timeout log =
  match Utils.validateURI uri with
  | Throw m => (Rejected m, log)
  | Ok _ =>
      let c := AxiosGet uri timeout in
      let settled := (log ++ [Request c] ++ [Response c])%list in
      match w _ (log ++ [Request c])%list c with
      | Rejected reason => (Rejected reason, settled)
      | Resolved body =>
          match Bytes.hexlify expectedHash with
          | Throw m => (Rejected m, settled)
          | Ok h => (Resolved (Utils.sha256FromBuffer body =? h)%string, settled)
          end
      end
  end.
Proof.
  unfold Utils.isURIHashVerified, Async.bind, Async.lift, Async.call,
    Async.ret, Async.reject.
  destruct (Utils.validateURI uri); [|reflexivity].
  cbv zeta. rewrite <- app_assoc.
  destruct (w _ _ _); [|reflexivity].
  destruct (Bytes.hexlify expectedHash); reflexivity.
Qed.

(** C4. [isURIHashVerified] has three outcomes.  It resolves to [true]
    when the digest of the fetched body equals the normalised expected
    hash, and to [false] when the fetch succeeded and the two differ.  When
    the URI is not an [https://] one it is rejected before any request goes
    out, and when the request fails or times out it is rejected with the
    request's reason: a rejection, never the boolean [false].  So a resolved
    [false] always means that a body was fetched and hashed to something
    else.  ([expectedHash] is a bytes32 value; one that [hexlify] cannot
    normalise makes the promise reject as well.) *)
Theorem isURIHashVerified_outcomes (w : World) (uri : string)
    (expectedHash : Bytes.BytesLike) (timeout : Z) (log : list Event) :
  let run := Utils.isURIHashVerified w uri expectedHash timeout log in
  let answer := w _ (log ++ [Request (AxiosGet uri timeout)])%list
                  (AxiosGet uri timeout) in
  (Utils.validateURI uri <> Ok tt ->
   run = (Rejected ("Invariant failed: " ++ uri ++ " must begin with `https://`"),
          log))
  /\ (forall reason,
        Utils.validateURI uri = Ok tt -> answer = Rejected reason ->
        fst run = Rejected reason)
  /\ (forall body h,
        Utils.validateURI uri = Ok tt -> answer = Resolved body ->
        Bytes.hexlify expectedHash = Ok h ->
        fst run = Resolved (Utils.sha256FromBuffer body =? h)%string)
  /\ (forall verified,
        fst run = Resolved verified ->
        exists body h,
          Utils.validateURI uri = Ok tt /\ answer = Resolved body
          /\ Bytes.hexlify expectedHash = Ok h
          /\ (verified = true <-> Utils.sha256FromBuffer body = h)).
Proof.
  intros run answer. subst run answer. rewrite isURIHashVerified_unfold.
  cbv zeta. split; [|split; [|split]].
  - intros H. destruct (validateURI_cases uri) as [E|E]; [contradiction|].
    now rewrite E.
  - intros reason -> ->. reflexivity.
  - intros body h -> -> ->. reflexivity.
  - destruct (Utils.validateURI uri) as [[]|]; [|discriminate].
    destruct (w _ _ _) as [body|]; [|discriminate].
    destruct (Bytes.hexlify expectedHash) as [h|]; [|discriminate].
    cbn [fst]. intros verified Hv. exists body, h.
    split; [reflexivity|]. split; [reflexivity|]. split; [reflexivity|].
    revert Hv. generalize (Utils.sha256FromBuffer body). intros digest Hv.
    assert (E : verified = (digest =? h)%string) by congruence.
    rewrite E. apply String.eqb_eq.
Qed.

(** ** Verification of a content record *)

Lemma isURIHashVerified_log (w : World) (uri : string)
    (expectedHash : Bytes.BytesLike) (timeout : Z) (log : list Event) :
  let c := AxiosGet uri timeout in
  (exists reason,
     Utils.isURIHashVerified w uri expectedHash timeout log
     = (Rejected reason, log))
  \/ snd (Utils.isURIHashVerified w uri expectedHash timeout log)
     = (log ++ [Request c; Response c])%list.
Proof.
  rewrite isURIHashVerified_unfold. cbv zeta.
  destruct (Utils.validateURI uri) as [[]|m]; [right | left; now exists m].
  destruct (w _ _ _); [|reflexivity].
  destruct (Bytes.hexlify expectedHash); reflexivity.
Qed.

Lemma verifyInSequence_log (w : World) (tokenURI : string)
    (contentHash : Bytes.BytesLike) (metadataURI : string)
    (metadataHash : Bytes.BytesLike) (timeout : Z) (log : list Event) :
  let ct := AxiosGet tokenURI timeout in
  let cm := AxiosGet metadataURI timeout in
  let log' := snd (verifyInSequence w tokenURI contentHash metadataURI
                     metadataHash timeout log) in
  log' = log
  \/ log' = (log ++ [Request ct; Response ct])%list
  \/ log' = (log ++ [Request ct; Response ct; Request cm; Response cm])%list.
Proof.
  cbv zeta. unfold verifyInSequence.
  destruct (isURIHashVerified_log w tokenURI contentHash timeout log)
    as [[reason E]|E].
  - rewrite E. now left.
  - destruct (Utils.isURIHashVerified w tokenURI contentHash timeout log)
      as [[b1|reason] log1]; cbn [snd] in E; subst log1.
    + destruct (isURIHashVerified_log w metadataURI metadataHash timeout
                  (log ++ [Request (AxiosGet tokenURI timeout);
                           Response (AxiosGet tokenURI timeout)])%list)
        as [[reason E2]|E2].
      * rewrite E2. right. now left.
      * destruct (Utils.isURIHashVerified w metadataURI metadataHash timeout _)
          as [[b2|reason] log2]; cbn [snd] in E2; subst log2; cbn [snd];
          right; right; now rewrite <- app_assoc.
    + right. now left.
Qed.

Lemma verifyInSequence_and (w : World) (tokenURI : string)
    (contentHash : Bytes.BytesLike) (metadataURI : string)
    (metadataHash : Bytes.BytesLike) (timeout : Z) (log : list Event)
    (verified : bool) :
  let first := Utils.isURIHashVerified w tokenURI contentHash timeout log in
  let second :=
    Utils.isURIHashVerified w metadataURI metadataHash timeout (snd first) in
  fst (verifyInSequence w tokenURI contentHash metadataURI metadataHash
         timeout log) = Resolved verified
  <-> exists b1 b2, fst first = Resolved b1 /\ fst second = Resolved b2
                    /\ verified = b1 && b2.
Proof.
  cbv zeta. unfold verifyInSequence.
  destruct (Utils.isURIHashVerified w tokenURI contentHash timeout log)
    as [[b1|r1] log1]; cbn [fst snd].
  - destruct (Utils.isURIHashVerified w metadataURI metadataHash timeout log1)
      as [[b2|r2] log2]; cbn [fst snd].
    + split.
      * intros [= <-]. now exists b1, b2.
      * intros (c1 & c2 & [= <-] & [= <-] & ->). reflexivity.
    + split; [discriminate | intros (c1 & c2 & _ & [=] & _)].
  - split; [discriminate | intros (c1 & c2 & [=] & _)].
Qed.

(** Runs the two verifications of a record's body, case by case. *)
Ltac run_both w timeout log :=
  unfold verifyInSequence, Async.bind, Async.ret;
  destruct (Utils.isURIHashVerified w _ _ timeout log) as [[?|?] ?];
    [|reflexivity];
  destruct (Utils.isURIHashVerified w _ _ timeout _) as [[?|?] ?];
    reflexivity.

(** C5, amended.  For each of the four content records the verifier is the
    two URI verifications run one after the other: when both resolve the
    result is their logical AND; when the first is rejected the whole is
    rejected at that point; and the request for the metadata URI goes out,
    if at all, only after the request for the token URI has settled. *)
Theorem content_record_verified_in_sequence (w : World) (timeout : Z)
    (log : list Event) :
  (forall d : ItemData,
     Utils.isItemDataVerified w d timeout log
     = verifyInSequence w (tokenURI d) (contentHash d) (metadataURI d)
         (metadataHash d) timeout log)
  /\ (forall d : AvatarData,
        Utils.isAvatarDataVerified w d timeout log
        = verifyInSequence w (avatar_tokenURI d) (avatar_contentHash d)
            (avatar_metadataURI d) (avatar_metadataHash d) timeout log)
  /\ (forall d : SpaceData,
        Utils.isSpaceDataVerified w d timeout log
        = verifyInSequence w (space_tokenURI d) (space_contentHash d)
            (space_metadataURI d) (space_metadataHash d) timeout log)
  /\ (forall d : LandData,
        Utils.isLandDataVerified w d timeout log
        = verifyInSequence w (land_tokenURI d) (land_contentHash d)
            (land_metadataURI d) (land_metadataHash d) timeout log)
  /\ (forall tokenURI contentHash metadataURI metadataHash,
        let first :=
          Utils.isURIHashVerified w tokenURI contentHash timeout log in
        let second :=
          Utils.isURIHashVerified w metadataURI metadataHash timeout
            (snd first) in
        let run :=
          verifyInSequence w tokenURI contentHash metadataURI metadataHash
            timeout log in
        let ct := AxiosGet tokenURI timeout in
        let cm := AxiosGet metadataURI timeout in
        (forall verified,
           fst run = Resolved verified
           <-> exists b1 b2, fst first = Resolved b1
                             /\ fst second = Resolved b2
                             /\ verified = b1 && b2)
        /\ (forall reason, fst first = Rejected reason -> run = first)
        /\ (snd run = log
            \/ snd run = (log ++ [Request ct; Response ct])%list
            \/ snd run = (log ++ [Request ct; Response ct;
                                  Request cm; Response cm])%list)).
Proof.
  split; [|split; [|split; [|split]]].
  - intros d. unfold Utils.isItemDataVerified. run_both w timeout log.
  - intros d. unfold Utils.isAvatarDataVerified. run_both w timeout log.
  - intros d. unfold Utils.isSpaceDataVerified. run_both w timeout log.
  - intros d. unfold Utils.isLandDataVerified. run_both w timeout log.
  - intros tokenURI contentHash metadataURI metadataHash. cbv zeta.
    split; [|split].
    + intros verified. apply verifyInSequence_and.
    + intros reason. unfold verifyInSequence.
      destruct (Utils.isURIHashVerified w tokenURI contentHash timeout log)
        as [[b1|r1] log1]; cbn [fst]; [discriminate | reflexivity].
    + apply verifyInSequence_log.
Qed.

(** C5, as stated, fails on the concurrency part.  With every request
    answered, the log shows the metadata request leaving only after the
    token request has settled (one call, not two, was in flight before the
    first settlement); and when the first request times out, the metadata
    request never leaves at all. *)
Lemma isItemDataVerified_waits_for_first_fetch :
  let ct := AxiosGet "https://example.com/content" 10 in
  let cm := AxiosGet "https://example.com/metadata" 10 in
  Utils.isItemDataVerified (servingWorld (Buffer.from "abc")) abcRecord 10 []
  = (Resolved true, [Request ct; Response ct; Request cm; Response cm])
  /\ startedBeforeSettling
       (snd (Utils.isItemDataVerified (servingWorld (Buffer.from "abc"))
               abcRecord 10 [])) = 1%nat
  /\ Utils.isItemDataVerified unreachableWorld abcRecord 10 []
     = (Rejected "timeout of 10ms exceeded", [Request ct; Response ct]).
Proof.
  cbv zeta. split; [|split]; vm_compute; reflexivity.
Qed.

(** ** Bids *)

Lemma isValidBid_unfold (w : World) (itemId : Z) (bid : Bid) (log : list Event) :
  let c1 := Exchange_isValidBid itemId (amount bid) in
  let c2 := Exchange_bidSharesForToken itemId in
  let log1 := (log ++ [Request c1])%list in
  let log2 := (log1 ++ [Response c1; Request c2])%list in
  MotifItem.isValidBid w itemId bid log =
  match w _ log1 c1 with
  | Rejected reason => (Rejected reason, (log1 ++ [Response c1])%list)
  | Resolved isAmountValid =>
      match w _ log2 c2 with
      | Rejected reason => (Rejected reason, (log2 ++ [Response c2])%list)
      | Resolved currentBidShares =>
          (Resolved (isAmountValid
                     && (value (sellOnShare bid)
                         <=? 100 * 10 ^ 18 - value (creator currentBidShares))),
           (log2 ++ [Response c2])%list)
      end
  end.
Proof.
  cbv zeta.
  unfold MotifItem.isValidBid, MotifItem.fetchCurrentBidShares, Async.bind,
    Async.call, Async.ret.
  destruct (w bool _ _) as [isAmountValid|]; [|reflexivity].
  rewrite decimal100. cbn [Async.lift Async.ret value].
  rewrite <- !app_assoc. cbn [app].
  destruct (w BidShares _ _); reflexivity.
Qed.

Lemma Resolved_inj {A} (a b : A) : Resolved a = Resolved b -> a = b.
Proof. now intros [= ->]. Qed.

(** C8. [isValidBid] resolves to [true] only if the bid's [sellOnShare] is
    at most [100 * 10^18] minus the creator share the exchange currently
    reports for the item; when it exceeds that bound (and the two contract
    reads resolve) the answer is [false].  [constructBid] does not look at
    the bound: any share input, also one above 100, is converted and
    stored. *)
Theorem isValidBid_checks_sellOnShare (w : World) (itemId : Z) (bid : Bid)
    (log : list Event) :
  let c1 := Exchange_isValidBid itemId (amount bid) in
  let c2 := Exchange_bidSharesForToken itemId in
  let log1 := (log ++ [Request c1])%list in
  let log2 := (log1 ++ [Response c1; Request c2])%list in
  (fst (MotifItem.isValidBid w itemId bid log) = Resolved true ->
   exists currentBidShares,
     w _ log2 c2 = Resolved currentBidShares
     /\ value (sellOnShare bid)
        <= 100 * 10 ^ 18 - value (creator currentBidShares))
  /\ (forall isAmountValid currentBidShares,
        w _ log1 c1 = Resolved isAmountValid ->
        w _ log2 c2 = Resolved currentBidShares ->
        value (sellOnShare bid)
        > 100 * 10 ^ 18 - value (creator currentBidShares) ->
        fst (MotifItem.isValidBid w itemId bid log) = Resolved false)
  /\ (forall getAddress currency amount bidder recipient x n,
        (forall a, In a [currency; bidder; recipient] ->
                   exists parsed, getAddress a = Ok parsed) ->
        shareInput x -> nearest4 x n ->
        exists b, Utils.constructBid getAddress currency amount bidder
                    recipient x = Ok b
                  /\ sellOnShare b = {| value := n * 10 ^ 14 |}).
Proof.
  cbv zeta. rewrite isValidBid_unfold. cbv zeta. split; [|split].
  - destruct (w bool _ _) as [isAmountValid|]; [|discriminate].
    destruct (w BidShares _ _) as [shares|]; [|discriminate].
    cbn [fst]. intros H. apply Resolved_inj, andb_true_iff in H as [_ H].
    exists shares. split; [reflexivity | now apply Z.leb_le].
  - intros isAmountValid shares -> -> H. cbn [fst].
    apply Z.gt_lt, Z.leb_gt in H. rewrite H.
    now rewrite andb_false_r.
  - intros getAddress currency amount bidder recipient x n Haddr [Hx _] Hn.
    unfold Utils.constructBid, Utils.validateAndParseAddress.
    destruct (Haddr currency) as [pc Ec]; [now left|].
    destruct (Haddr bidder) as [pb Eb]; [right; now left|].
    destruct (Haddr recipient) as [pr Er]; [right; right; now left|].
    rewrite Ec, Eb, Er, (makeDecimal_nearest x n Hx Hn). cbn [Utils.rethrow bindR].
    eexists. split; reflexivity.
Qed.

(** ** The read-only guard *)

Lemma new_readOnly getAddress addresses signerOrProvider chainId
    itemAddress itemExchangeAddress (this : MotifItem.t) :
  MotifItem.new getAddress addresses signerOrProvider chainId itemAddress
    itemExchangeAddress = Ok this ->
  MotifItem.readOnly this = negb (MotifItem.Signer_isSigner signerOrProvider)
  /\ MotifItem.signerOrProvider this = signerOrProvider.
Proof.
  unfold MotifItem.new.
  destruct (if negb _ then _ else _) as [[]|]; [|discriminate].
  cbn [bindR].
  match goal with |- bindR ?r _ = _ -> _ => destruct r; [|discriminate] end.
  cbn [bindR]. intros [= <-]. cbn [MotifItem.readOnly MotifItem.signerOrProvider].
  split; [|reflexivity]. now destruct (MotifItem.Signer_isSigner _).
Qed.

Lemma guard_throws (this : MotifItem.t) :
  MotifItem.readOnly this = true ->
  MotifItem.ensureNotReadOnly this = Throw guardMessage.
Proof. unfold MotifItem.ensureNotReadOnly. now intros ->. Qed.

Lemma viewsForwarded_all (w : World) : viewsForwarded w.
Proof.
  unfold viewsForwarded, forwards. repeat split; intros;
    unfold MotifItem.fetchContentHash, MotifItem.fetchMetadataHash,
      MotifItem.fetchTokenContract, MotifItem.fetchContentURI,
      MotifItem.fetchMetadataURI, MotifItem.fetchCreator,
      MotifItem.fetchCurrentBidShares, MotifItem.fetchCurrentAsk,
      MotifItem.fetchCurrentBidForBidder, MotifItem.fetchPermitNonce,
      MotifItem.fetchMintWithSigNonce, MotifItem.fetchBalanceOf,
      MotifItem.fetchOwnerOf, MotifItem.fetchItemOfOwnerByIndex,
      MotifItem.fetchTotalItem, MotifItem.fetchItemByIndex,
      MotifItem.fetchApproved, MotifItem.fetchIsApprovedForAll, Async.call;
    cbv zeta; now rewrite <- app_assoc.
Qed.

Lemma writesRejected_readOnly (w : World) (this : MotifItem.t) :
  MotifItem.readOnly this = true -> writesRejected w this.
Proof.
  intros H. apply guard_throws in H.
  unfold writesRejected, rejectedByGuard.
  repeat split; intros;
    unfold MotifItem.updateContentURI, MotifItem.updateMetadataURI,
      MotifItem.mint, MotifItem.mintMultiple, MotifItem.mintWithSig,
      MotifItem.setAsk, MotifItem.setBid, MotifItem.removeAsk,
      MotifItem.removeBid, MotifItem.acceptBid, MotifItem.permit,
      MotifItem.revokeApproval, MotifItem.burn, MotifItem.approve,
      MotifItem.setApprovalForAll, MotifItem.transferFrom,
      MotifItem.safeTransferFrom, Async.bind;
    rewrite H; reflexivity.
Qed.

(** C10. An instance constructed from a provider is read-only, and each
    of its seventeen state-changing methods returns a promise rejected with
    the [ensureNotReadOnly] message without any call having gone out; the
    fetch methods are not guarded and forward their call to the contract. *)
Theorem readOnly_instance_rejects_writes
    (getAddress : string -> Result string)
    (addresses : string -> option MotifItem.Deployment)
    (w : World) (url : string) (chainId : Z)
    (itemAddress itemExchangeAddress : option string) (this : MotifItem.t) :
  MotifItem.new getAddress addresses (MotifItem.AProvider url) chainId
    itemAddress itemExchangeAddress = Ok this ->
  MotifItem.readOnly this = true
  /\ writesRejected w this
  /\ viewsForwarded w.
Proof.
  intros Hnew. apply new_readOnly in Hnew as [Hro _]. cbn [MotifItem.Signer_isSigner negb] in Hro.
  split; [exact Hro|]. split; [now apply writesRejected_readOnly | apply viewsForwarded_all].
Qed.

Lemma readOnly_instance_rejects_writes_witness :
  MotifItem.readOnly providerInstance = true
  /\ writesRejected unreachableWorld providerInstance
  /\ viewsForwarded unreachableWorld.
Proof.
  apply (readOnly_instance_rejects_writes
           (fun address => Ok address) (fun _ => None) unreachableWorld
           "http://localhost:8545" 50
           (Some "0x1D7022f5B17d2F8B695918FB48fa1089C9f85401")
           (Some "0x1dC4c1cEFEF38a777b15aA20260a54E584b16C48")).
  reflexivity.
Defined.

(** The test-suite's invalid bid: a sell-on share of 90.1% against a creator
    share of 10%. *)
Example isValidBid_sellOnShare_too_large :
  exists bid,
    Utils.constructBid (fun address => Ok address) "0xC" 200 "0xB" "0xB"
      (901 # 10) = Ok bid
    /\ value (sellOnShare bid) = 901000 * 10 ^ 14
    /\ fst (MotifItem.isValidBid
              (exchangeWorld {| owner := {| value := 90 * 10 ^ 18 |};
                                prevOwner := {| value := 0 |};
                                creator := {| value := 10 * 10 ^ 18 |} |})
              0 bid []) = Resolved false.
Proof.
  eexists. split; [vm_compute; reflexivity|]. split; vm_compute; reflexivity.
Qed.

(** * Further properties of [src/utils.ts] and [src/MotifItem.ts] *)

(** ** Content records *)

Lemma validateURI_ok_iff (uri : string) :
  Utils.validateURI uri = Ok tt <-> isHttps uri.
Proof.
  unfold Utils.validateURI, RegExp.match_https, isHttps.
  destruct (RegExp.literal "https://" uri) as [rest|] eqn:E.
  - apply literal_spec in E. split; [intros _; now exists rest | reflexivity].
  - split; [discriminate|]. intros [rest Hr]. apply literal_spec in Hr.
    congruence.
Qed.

Lemma runChecks_firstFailure (checks : list (Result unit)) :
  runChecks checks
  = match firstFailure checks with
    | Some message => Throw message
    | None => Ok tt
    end.
Proof.
  induction checks as [|[[]|m] rest IH]; cbn [runChecks firstFailure bindR];
    [reflexivity | exact IH | reflexivity].
Qed.

Lemma firstFailure_none (checks : list (Result unit)) :
  firstFailure checks = None <-> Forall (fun check => check = Ok tt) checks.
Proof.
  induction checks as [|[[]|m] rest IH]; cbn [firstFailure].
  - split; [constructor | reflexivity].
  - rewrite IH. split; [now constructor | now inversion 1].
  - split; [discriminate | inversion 1; discriminate].
Qed.

Lemma recordChecks_pass (tokenURI metadataURI : string)
    (contentHash metadataHash : Bytes.BytesLike) :
  firstFailure (recordChecks tokenURI metadataURI contentHash metadataHash)
  = None
  <-> is32Bytes contentHash /\ is32Bytes metadataHash
      /\ isHttps tokenURI /\ isHttps metadataURI.
Proof.
  rewrite firstFailure_none. unfold recordChecks, is32Bytes.
  rewrite <- !validateBytes32_arrayify, <- !validateURI_ok_iff.
  rewrite !Forall_cons_iff. pose proof (Forall_nil (fun check : Result unit => check = Ok tt)).
  tauto.
Qed.

Lemma constructItemData_runChecks (tokenURI metadataURI : string)
    (contentHash metadataHash : Bytes.BytesLike) :
  Utils.constructItemData tokenURI metadataURI contentHash metadataHash
  = (runChecks (recordChecks tokenURI metadataURI contentHash metadataHash) ;;
     Ok {| tokenURI := tokenURI; metadataURI := metadataURI;
           contentHash := contentHash; metadataHash := metadataHash |})%result.
Proof.
  unfold Utils.constructItemData, recordChecks. cbn [runChecks].
  destruct (Utils.validateBytes32 contentHash) as [[]|]; [|reflexivity].
  destruct (Utils.validateBytes32 metadataHash) as [[]|]; [|reflexivity].
  destruct (Utils.validateURI tokenURI) as [[]|]; [|reflexivity].
  destruct (Utils.validateURI metadataURI) as [[]|]; reflexivity.
Qed.

Lemma constructLandData_runChecks (tokenURI metadataURI : string)
    (contentHash metadataHash : Bytes.BytesLike) (x y : Z) :
  Utils.constructLandData tokenURI metadataURI contentHash metadataHash x y
  = (runChecks (recordChecks tokenURI metadataURI contentHash metadataHash) ;;
     Ok {| land_tokenURI := tokenURI; land_metadataURI := metadataURI;
           land_contentHash := contentHash;
           land_metadataHash := metadataHash;
           xCoordinate := x; yCoordinate := y |})%result.
Proof.
  unfold Utils.constructLandData, recordChecks. cbn [runChecks].
  destruct (Utils.validateBytes32 contentHash) as [[]|]; [|reflexivity].
  destruct (Utils.validateBytes32 metadataHash) as [[]|]; [|reflexivity].
  destruct (Utils.validateURI tokenURI) as [[]|]; [|reflexivity].
  destruct (Utils.validateURI metadataURI) as [[]|]; reflexivity.
Qed.

(** X1. [constructItemData] and [constructLandData] succeed exactly when
    both hashes denote 32 bytes and both URIs begin with [https://]; the
    record then holds the arguments as they were given (a hash is not
    normalised).  When a check fails, the error is that of the first failing
    one in the order content hash, metadata hash, token URI, metadata URI. *)
Theorem record_constructors_check_then_copy (tokenURI metadataURI : string)
    (contentHash metadataHash : Bytes.BytesLike) (x y : Z) :
  let valid := is32Bytes contentHash /\ is32Bytes metadataHash
               /\ isHttps tokenURI /\ isHttps metadataURI in
  let item := {| tokenURI := tokenURI; metadataURI := metadataURI;
                 contentHash := contentHash;
                 metadataHash := metadataHash |} in
  let land := {| land_tokenURI := tokenURI;
                 land_metadataURI := metadataURI;
                 land_contentHash := contentHash;
                 land_metadataHash := metadataHash;
                 xCoordinate := x; yCoordinate := y |} in
  (forall d,
     Utils.constructItemData tokenURI metadataURI contentHash metadataHash
     = Ok d <-> valid /\ d = item)
  /\ (forall d,
        Utils.constructLandData tokenURI metadataURI contentHash metadataHash
          x y = Ok d <-> valid /\ d = land)
  /\ (forall message,
        firstFailure
          [Utils.validateBytes32 contentHash;
           Utils.validateBytes32 metadataHash;
           Utils.validateURI tokenURI; Utils.validateURI metadataURI]
        = Some message ->
        Utils.constructItemData tokenURI metadataURI contentHash metadataHash
        = Throw message
        /\ Utils.constructLandData tokenURI metadataURI contentHash
             metadataHash x y = Throw message).
Proof.
  cbv zeta.
  rewrite constructItemData_runChecks, constructLandData_runChecks,
    runChecks_firstFailure.
  pose proof (recordChecks_pass tokenURI metadataURI contentHash metadataHash)
    as Hv.
  fold (recordChecks tokenURI metadataURI contentHash metadataHash).
  destruct (firstFailure _) as [m|]; cbn [bindR].
  - assert (Hn : ~ (is32Bytes contentHash /\ is32Bytes metadataHash
                    /\ isHttps tokenURI /\ isHttps metadataURI))
      by (intros H; apply Hv in H; discriminate).
    split; [|split].
    + intros d. split; [discriminate | intros [H _]; contradiction].
    + intros d. split; [discriminate | intros [H _]; contradiction].
    + intros message [= ->]. now split.
  - assert (Hy : is32Bytes contentHash /\ is32Bytes metadataHash
                 /\ isHttps tokenURI /\ isHttps metadataURI)
      by now apply Hv.
    split; [|split].
    + intros d. split; [intros [= <-]; now split | intros [_ ->]; reflexivity].
    + intros d. split; [intros [= <-]; now split | intros [_ ->]; reflexivity].
    + discriminate.
Qed.

(** ** Digests as hashes of a record *)

Lemma toLowerChar_facts (c : ascii) :
  Bytes.hexDigitValue (Bytes.toLowerChar c) = Bytes.hexDigitValue c
  /\ Bytes.toLowerChar (Bytes.toLowerChar c) = Bytes.toLowerChar c
  /\ (isLowerHexDigit c = true -> Bytes.toLowerChar c = c).
Proof.
  destruct c as [[] [] [] [] [] [] [] []];
    (split; [reflexivity | split; [reflexivity | ]]);
    first [ discriminate | reflexivity ].
Qed.



Lemma toLowerCase_lower (s : string) :
  allLowerHex s = true -> Bytes.toLowerCase s = s.
Proof.
  induction s as [|c s IH]; [reflexivity|]. cbn [allLowerHex Bytes.toLowerCase].
  rewrite andb_true_iff. intros [Hc Hs].
  now rewrite (proj2 (proj2 (toLowerChar_facts c)) Hc), IH.
Qed.

Lemma toLowerCase_digits (s : string) :
  Bytes.allHexDigits (Bytes.toLowerCase s) = Bytes.allHexDigits s.
Proof.
  induction s as [|c s IH]; [reflexivity|].
  cbn [Bytes.allHexDigits Bytes.toLowerCase]. rewrite IH. f_equal.
  unfold Bytes.isHexDigit. now rewrite (proj1 (toLowerChar_facts c)).
Qed.

Lemma hexBits_toLowerCase (s : string) :
  Sjcl.hexBits (Bytes.toLowerCase s) = Sjcl.hexBits s.
Proof.
  induction s as [|c s IH]; [reflexivity|].
  cbn [Sjcl.hexBits Bytes.toLowerCase].
  now rewrite (proj1 (toLowerChar_facts c)), IH.
Qed.

Lemma toLowerCase_prefixed (digits : string) :
  Bytes.toLowerCase (String "0" (String "x" digits))
  = String "0" (String "x" (Bytes.toLowerCase digits)).
Proof. reflexivity. Qed.

Lemma hexString_strlen_odd (digits : string) :
  Z.odd (Bytes.strlen (String "0" (String "x" digits)))
  = Z.odd (Z.of_nat (String.length digits)).
Proof.
  unfold Bytes.strlen. cbn [String.length].
  now rewrite !Nat2Z.inj_succ, Z.odd_succ_succ.
Qed.


Lemma digest_is_bytes32 (s : string) :
  isDigestText s ->
  Utils.validateBytes32 (Bytes.Str s) = Ok tt
  /\ Bytes.hexlify (Bytes.Str s) = Ok s.
Proof.
  intros (digits & -> & Hlen & Hlow).
  change ("0x" ++ digits) with (String "0" (String "x" digits)).
  pose proof (allLowerHex_allHexDigits _ Hlow) as Hd.
  unfold Utils.validateBytes32, Bytes.hexDataLength, Bytes.hexlify.
  cbn [Bytes.isHexString]. rewrite Hd, hexString_strlen_odd, Hlen.
  cbn [negb orb Z.odd Z.of_nat Pos.of_succ_nat Pos.succ bindR].
  unfold Bytes.strlen. cbn [String.length]. rewrite Hlen.
  split; [reflexivity|].
  now rewrite toLowerCase_prefixed, (toLowerCase_lower digits Hlow).
Qed.

(** X2. Whatever [sha256FromBuffer] or [sha256FromHexString] returns is a
    valid bytes32 value for the rest of the SDK: [validateBytes32] accepts
    it and [hexlify] leaves it as it is. *)
Theorem digests_are_bytes32 (buffer : Buffer.t) :
  Utils.validateBytes32 (Bytes.Str (Utils.sha256FromBuffer buffer)) = Ok tt
  /\ Bytes.hexlify (Bytes.Str (Utils.sha256FromBuffer buffer))
     = Ok (Utils.sha256FromBuffer buffer)
  /\ (forall data digest,
        Utils.sha256FromHexString data = Ok digest ->
        Utils.validateBytes32 (Bytes.Str digest) = Ok tt
        /\ Bytes.hexlify (Bytes.Str digest) = Ok digest).
Proof.
  split; [|split].
  - apply digest_is_bytes32, digest_text.
  - apply digest_is_bytes32, digest_text.
  - intros data digest. unfold Utils.sha256FromHexString.
    destruct (negb (Bytes.isHexString data)); [discriminate|].
    intros [= <-]. apply digest_is_bytes32, digest_text.
Qed.

(** X3. A record built from the digests of two bodies verifies against a
    world that serves those bodies: [constructItemData] accepts the digests
    and [isItemDataVerified] resolves to [true]. *)
Theorem record_of_served_content_is_verified (w : World)
    (uri1 uri2 : string) (content metadata : Buffer.t)
    (timeout : Z) (log : list Event) :
  let ct := AxiosGet uri1 timeout in
  let cm := AxiosGet uri2 timeout in
  isHttps uri1 -> isHttps uri2 ->
  w _ (log ++ [Request ct])%list ct = Resolved content ->
  w _ ((log ++ [Request ct; Response ct]) ++ [Request cm])%list cm
  = Resolved metadata ->
  exists d,
    Utils.constructItemData uri1 uri2
      (Bytes.Str (Utils.sha256FromBuffer content))
      (Bytes.Str (Utils.sha256FromBuffer metadata)) = Ok d
    /\ Utils.isItemDataVerified w d timeout log
       = (Resolved true,
          (log ++ [Request ct; Response ct; Request cm; Response cm])%list).
Proof.
  cbv zeta. intros Ht Hm Hc Hd.
  apply validateURI_ok_iff in Ht, Hm.
  destruct (digest_is_bytes32 _ (digest_text
              (Sjcl.codec_hex_toBits (Buffer.toString_hex content))))
    as [Vc Lc].
  destruct (digest_is_bytes32 _ (digest_text
              (Sjcl.codec_hex_toBits (Buffer.toString_hex metadata))))
    as [Vm Lm].
  fold (Utils.sha256FromBuffer content) in Vc, Lc.
  fold (Utils.sha256FromBuffer metadata) in Vm, Lm.
  eexists. split.
  - unfold Utils.constructItemData. rewrite Vc, Vm, Ht, Hm. reflexivity.
  - unfold Utils.isItemDataVerified, Async.bind.
    cbn [tokenURI metadataURI contentHash metadataHash].
    rewrite isURIHashVerified_unfold, Ht. cbv zeta. rewrite Hc, Lc.
    rewrite String.eqb_refl. cbn [app].
    rewrite isURIHashVerified_unfold, Hm. cbv zeta. rewrite Hd, Lm.
    rewrite String.eqb_refl. unfold Async.ret. cbn [andb].
    now rewrite <- !app_assoc.
Qed.

Lemma record_of_served_content_is_verified_witness :
  exists d,
    Utils.constructItemData "https://example.com/content"
      "https://example.com/metadata"
      (Bytes.Str (Utils.sha256FromBuffer (Buffer.from "abc")))
      (Bytes.Str (Utils.sha256FromBuffer (Buffer.from "abc"))) = Ok d
    /\ Utils.isItemDataVerified (servingWorld (Buffer.from "abc")) d 10 []
       = (Resolved true,
          [Request (AxiosGet "https://example.com/content" 10);
           Response (AxiosGet "https://example.com/content" 10);
           Request (AxiosGet "https://example.com/metadata" 10);
           Response (AxiosGet "https://example.com/metadata" 10)]).
Proof.
  apply (record_of_served_content_is_verified
           (servingWorld (Buffer.from "abc"))
           "https://example.com/content" "https://example.com/metadata"
           (Buffer.from "abc") (Buffer.from "abc") 10 []).
  - now exists "example.com/content".
  - now exists "example.com/metadata".
  - reflexivity.
  - reflexivity.
Defined.



(** X5. [sha256FromHexString] hashes the bytes, not their spelling: the
    digest of a hex string is that of its lower-case form, and that of its
    [hexlify] normal form. *)
Theorem sha256FromHexString_ignores_case (data : string) :
  Bytes.isHexString data = true ->
  Utils.sha256FromHexString (Bytes.toLowerCase data)
  = Utils.sha256FromHexString data
  /\ (forall h, Bytes.hexlify (Bytes.Str data) = Ok h ->
                Utils.sha256FromHexString h
                = Utils.sha256FromHexString data).
Proof.
  intros Hs.
  assert (E : Utils.sha256FromHexString (Bytes.toLowerCase data)
              = Utils.sha256FromHexString data).
  { apply isHexString_inv in Hs as (digits & -> & Hd).
    unfold Utils.sha256FromHexString. rewrite toLowerCase_prefixed.
    cbn [Bytes.isHexString]. rewrite toLowerCase_digits, Hd. cbn [negb].
    change (String "0" (String "x" (Bytes.toLowerCase digits)))
      with ("0x" ++ Bytes.toLowerCase digits).
    change (String "0" (String "x" digits)) with ("0x" ++ digits).
    rewrite !toBits_prefixed. unfold Sjcl.codec_hex_toBits.
    rewrite !strip_digits by (now rewrite ?toLowerCase_digits).
    now rewrite hexBits_toLowerCase. }
  split; [exact E|].
  intros h. cbn [Bytes.hexlify]. rewrite Hs.
  destruct (Z.odd (Bytes.strlen data)); [discriminate|].
  now intros [= <-].
Qed.

Lemma sha256FromHexString_ignores_case_witness :
  Utils.sha256FromHexString (Bytes.toLowerCase "0xAB12cd")
  = Utils.sha256FromHexString "0xAB12cd"
  /\ (forall h, Bytes.hexlify (Bytes.Str "0xAB12cd") = Ok h ->
                Utils.sha256FromHexString h
                = Utils.sha256FromHexString "0xAB12cd").
Proof.
  apply (sha256FromHexString_ignores_case "0xAB12cd"). reflexivity.
Defined.

(** ** [stripHexPrefix] *)

Lemma stripHexPrefix_prefixed (s : string) :
  Utils.stripHexPrefix ("0x" ++ s) = s.
Proof.
  unfold Utils.stripHexPrefix.
  change ("0x" ++ s) with (String "0" (String "x" s)).
  replace (substring 0 2 (String "0" (String "x" s))) with "0x"
    by (destruct s; reflexivity).
  rewrite String.eqb_refl. cbn [String.length Nat.sub substring].
  rewrite Nat.sub_0_r. apply substring_all.
Qed.

Lemma substring_0x (hex : string) :
  substring 0 2 hex = "0x" -> exists s, hex = "0x" ++ s.
Proof.
  destruct hex as [|a [|b rest]]; cbn [substring]; try discriminate.
  destruct rest; cbn [substring]; intros [= -> ->]; eexists; reflexivity.
Qed.

(** X6. [stripHexPrefix] removes exactly one leading [0x] and leaves any
    other string as it is; since [sjcl]'s hex codec drops the prefix
    itself, stripping first does not change what gets hashed; and a string
    that passes [isHexString] is its stripped digits behind [0x]. *)
Theorem stripHexPrefix_removes_one_prefix (hex : string) :
  (forall s, hex = "0x" ++ s -> Utils.stripHexPrefix hex = s)
  /\ ((forall s, hex <> "0x" ++ s) -> Utils.stripHexPrefix hex = hex)
  /\ Sjcl.codec_hex_toBits (Utils.stripHexPrefix hex)
     = Sjcl.codec_hex_toBits hex
  /\ (Bytes.isHexString hex = true ->
      hex = "0x" ++ Utils.stripHexPrefix hex
      /\ Bytes.allHexDigits (Utils.stripHexPrefix hex) = true).
Proof.
  assert (Hno : (forall s, hex <> "0x" ++ s) -> Utils.stripHexPrefix hex = hex).
  { intros H. unfold Utils.stripHexPrefix.
    destruct (String.eqb_spec (substring 0 2 hex) "0x") as [E|E];
      [|reflexivity].
    apply substring_0x in E as [s Hs]. now destruct (H s). }
  split; [|split; [|split]].
  - intros s ->. apply stripHexPrefix_prefixed.
  - exact Hno.
  - destruct (String.eqb_spec (substring 0 2 hex) "0x") as [E|E].
    + apply substring_0x in E as [s ->].
      rewrite stripHexPrefix_prefixed. symmetry. apply toBits_prefixed.
    + unfold Utils.stripHexPrefix.
      destruct (String.eqb_spec (substring 0 2 hex) "0x");
        [contradiction|reflexivity].
  - intros H. apply isHexString_inv in H as (digits & -> & Hd).
    change (String "0" (String "x" digits)) with ("0x" ++ digits).
    rewrite stripHexPrefix_prefixed. now split.
Qed.

(** ** Asks and bids *)

Lemma validateAndParseAddress_cases getAddress (address : string) :
  Utils.validateAndParseAddress getAddress address
  = match getAddress address with
    | Ok checksummed => Ok checksummed
    | Throw _ => Throw (invalidAddress address)
    end.
Proof.
  unfold Utils.validateAndParseAddress. now destruct (getAddress address).
Qed.

(** X7. [constructAsk] and [constructBid] store the checksummed form of each
    address and pass the amount through unchanged.  An address that
    [getAddress] refuses is reported by the SDK's own message (the library's
    reason is dropped), and [constructBid] names the role of the first bad
    address in the order currency, bidder, recipient; the share is only
    converted once all three addresses are valid. *)
Theorem constructBid_reports_first_invalid_address
    (getAddress : string -> Result string)
    (currencyAddress : string) (bidAmount : BigNumber.t)
    (bidderAddress recipientAddress : string) (share : Q) :
  let refused a := exists reason, getAddress a = Throw reason in
  let bid :=
    Utils.constructBid getAddress currencyAddress bidAmount bidderAddress
      recipientAddress share in
  let ask := Utils.constructAsk getAddress currencyAddress bidAmount in
  (refused currencyAddress ->
   ask = Throw (invalidAddress currencyAddress)
   /\ bid = Throw ("Currency address is invalid: "
                   ++ invalidAddress currencyAddress))
  /\ (forall c, getAddress currencyAddress = Ok c ->
        ask = Ok {| ask_currency := c; ask_amount := bidAmount |}
        /\ (refused bidderAddress ->
            bid = Throw ("Bidder address is invalid: "
                         ++ invalidAddress bidderAddress))
        /\ (forall b, getAddress bidderAddress = Ok b ->
              (refused recipientAddress ->
               bid = Throw ("Recipient address is invalid: "
                            ++ invalidAddress recipientAddress))
              /\ (forall r, getAddress recipientAddress = Ok r ->
                    bid = (decimalSellOnShare <- Utils.makeDecimal share ;;
                           Ok {| currency := c; amount := bidAmount;
                                 bidder := b; recipient := r;
                                 sellOnShare := decimalSellOnShare |})%result))).
Proof.
  cbv zeta. unfold Utils.constructBid, Utils.constructAsk.
  rewrite !validateAndParseAddress_cases.
  split.
  - intros [reason ->]. now split.
  - intros c ->. cbn [bindR Utils.rethrow]. split; [reflexivity|]. split.
    + intros [reason ->]. reflexivity.
    + intros b ->. cbn [bindR Utils.rethrow]. split.
      * intros [reason ->]. reflexivity.
      * intros r ->. reflexivity.
Qed.

(** ** The constructor *)

Lemma chainIdToNetworkName_unsupported (chainId : Z) :
  chainId <> 7018 -> chainId <> 3 -> chainId <> 1 ->
  exists message, Utils.chainIdToNetworkName chainId = Throw message.
Proof.
  intros H7018 H3 H1. unfold Utils.chainIdToNetworkName.
  destruct chainId as [|p|p]; [eexists; reflexivity| |eexists; reflexivity].
  do 14 (try (destruct p as [p|p|]; try (eexists; reflexivity);
              try congruence)).
Qed.

(** X8. The constructor refuses one contract address without the other.
    Given both, it stores their checksummed forms, reports the item address
    before the exchange address when they are invalid, and never consults
    the chain id.  Given neither, it takes both addresses from the address
    book entry of the network ([motif] for 7018, [ropsten] for 3, [mainnet]
    for 1) without validating them, and throws for every other chain id.
    The instance is read-only exactly when it was not given a signer. *)
Theorem new_resolves_the_contract_addresses
    (getAddress : string -> Result string)
    (addresses : string -> option MotifItem.Deployment)
    (signerOrProvider : MotifItem.SignerOrProvider) (chainId : Z)
    (itemAddress itemExchangeAddress : option string) :
  let built :=
    MotifItem.new getAddress addresses signerOrProvider chainId itemAddress
      itemExchangeAddress in
  let instance a e :=
    {| MotifItem.chainId := chainId;
       MotifItem.itemAddress := a;
       MotifItem.itemExchangeAddress := e;
       MotifItem.signerOrProvider := signerOrProvider;
       MotifItem.readOnly :=
         negb (MotifItem.Signer_isSigner signerOrProvider) |} in
  (MotifItem.truthy itemAddress <> MotifItem.truthy itemExchangeAddress ->
   built = Throw constructorMessage)
  /\ (forall a e,
        itemAddress = Some a -> itemExchangeAddress = Some e ->
        a <> "" -> e <> "" ->
        built = match getAddress a, getAddress e with
                | Ok parsedItem, Ok parsedExchange =>
                    Ok (instance parsedItem parsedExchange)
                | Ok _, Throw _ => Throw (invalidAddress e)
                | Throw _, _ => Throw (invalidAddress a)
                end)
  /\ (MotifItem.truthy itemAddress = false ->
      MotifItem.truthy itemExchangeAddress = false ->
      (forall network d,
         (chainId = 7018 /\ network = "motif")
         \/ (chainId = 3 /\ network = "ropsten")
         \/ (chainId = 1 /\ network = "mainnet") ->
         addresses network = Some d ->
         built = Ok (instance (MotifItem.item d) (MotifItem.itemExchange d)))
      /\ (chainId <> 7018 -> chainId <> 3 -> chainId <> 1 ->
          exists message, built = Throw message)).
Proof.
  cbv zeta. unfold MotifItem.new. split; [|split].
  - intros H.
    destruct (MotifItem.truthy itemAddress),
      (MotifItem.truthy itemExchangeAddress); try reflexivity;
      now destruct H.
  - intros a e -> -> Ha He.
    assert (Ta : MotifItem.truthy (Some a) = true).
    { cbn. now destruct (String.eqb_spec a ""). }
    assert (Te : MotifItem.truthy (Some e) = true).
    { cbn. now destruct (String.eqb_spec e ""). }
    rewrite Ta, Te. cbn [negb Bool.eqb bindR andb].
    rewrite !validateAndParseAddress_cases.
    destruct (getAddress a); [|reflexivity]. cbn [bindR].
    destruct (getAddress e); [|reflexivity]. cbn [bindR fst snd].
    now destruct signerOrProvider.
  - intros Ta Te. rewrite Ta, Te. cbn [negb Bool.eqb bindR andb].
    assert (Hbook :
      match itemAddress, itemExchangeAddress with
      | Some a, Some e =>
          if false
          then
            (parsedItemAddress <- Utils.validateAndParseAddress getAddress a ;;
             parsedItemExchangeAddress <-
               Utils.validateAndParseAddress getAddress e ;;
             Ok (parsedItemAddress, parsedItemExchangeAddress))%result
          else
            (network <- Utils.chainIdToNetworkName chainId ;;
             match addresses network with
             | Some d => Ok (MotifItem.item d, MotifItem.itemExchange d)
             | None => Throw "Cannot read property 'item' of undefined"
             end)%result
      | _, _ =>
          (network <- Utils.chainIdToNetworkName chainId ;;
           match addresses network with
           | Some d => Ok (MotifItem.item d, MotifItem.itemExchange d)
           | None => Throw "Cannot read property 'item' of undefined"
           end)%result
      end
      = (network <- Utils.chainIdToNetworkName chainId ;;
         match addresses network with
         | Some d => Ok (MotifItem.item d, MotifItem.itemExchange d)
         | None => Throw "Cannot read property 'item' of undefined"
         end)%result).
    { now destruct itemAddress, itemExchangeAddress. }
    rewrite Hbook. clear Hbook. split.
    + intros network d Hn Hd.
      assert (Hname : Utils.chainIdToNetworkName chainId = Ok network).
      { destruct Hn as [[-> ->]|[[-> ->]|[-> ->]]]; reflexivity. }
      rewrite Hname. cbn [bindR]. rewrite Hd. cbn [bindR fst snd].
      now destruct signerOrProvider.
    + intros H7018 H3 H1.
      destruct (chainIdToNetworkName_unsupported chainId H7018 H3 H1)
        as [message ->].
      exists message. reflexivity.
Qed.

(** ** Minting *)

Lemma validateBidShares_ok_iff (bidShares : BidShares) :
  Utils.validateBidShares (creator bidShares) (owner bidShares)
    (prevOwner bidShares) = Ok tt
  <-> sumsTo100 bidShares.
Proof.
  rewrite validateBidShares_unfold. cbv zeta. unfold sumsTo100.
  destruct (Z.eqb_spec
              (value (creator bidShares) + value (owner bidShares)
               + value (prevOwner bidShares)) (100 * 10 ^ 18)) as [E|E].
  - split; [intros _; exact E | reflexivity].
  - split; [discriminate | intros H; now destruct E].
Qed.

Lemma ensureNotReadOnly_ok_iff (this : MotifItem.t) :
  MotifItem.ensureNotReadOnly this = Ok tt <-> MotifItem.readOnly this = false.
Proof.
  unfold MotifItem.ensureNotReadOnly.
  destruct (MotifItem.readOnly this); split; (reflexivity || discriminate).
Qed.

Lemma mintChecks_pass (this : MotifItem.t) (itemData : ItemData)
    (bidShares : BidShares) :
  firstFailure (mintChecks this itemData bidShares) = None
  <-> MotifItem.readOnly this = false
      /\ isHttps (metadataURI itemData) /\ isHttps (tokenURI itemData)
      /\ sumsTo100 bidShares.
Proof.
  rewrite firstFailure_none. unfold mintChecks.
  rewrite <- ensureNotReadOnly_ok_iff, <- !validateURI_ok_iff,
    <- validateBidShares_ok_iff.
  rewrite !Forall_cons_iff.
  pose proof (Forall_nil (fun check : Result unit => check = Ok tt)).
  tauto.
Qed.

Lemma mint_preflight (this : MotifItem.t) (itemData : ItemData)
    (bidShares : BidShares) :
  (MotifItem.ensureNotReadOnly this ;;
   Utils.validateURI (metadataURI itemData) ;;
   Utils.validateURI (tokenURI itemData) ;;
   Utils.validateBidShares (creator bidShares) (owner bidShares)
     (prevOwner bidShares))%result
  = runChecks (mintChecks this itemData bidShares).
Proof.
  unfold mintChecks. cbn [runChecks].
  destruct (MotifItem.ensureNotReadOnly this) as [[]|]; [|reflexivity].
  destruct (Utils.validateURI (metadataURI itemData)) as [[]|]; [|reflexivity].
  destruct (Utils.validateURI (tokenURI itemData)) as [[]|]; [|reflexivity].
  destruct (Utils.validateBidShares _ _ _) as [[]|]; reflexivity.
Qed.

Lemma estimatesThenSends_bind (w : World)
    (estimate : Call BigNumber.t)
    (transaction : string -> Call ContractTransaction)
    (limit : BigNumber.t -> BigNumber.t) :
  estimatesThenSends w
    (gasEstimate <- Async.call w estimate ;;
     Async.call w (transaction (BigNumber.toString (limit gasEstimate))))%async
    estimate transaction limit.
Proof.
  intros log. cbv zeta. unfold Async.bind, Async.call.
  destruct (w BigNumber.t (log ++ [Request estimate])%list estimate);
    [|reflexivity].
  now rewrite <- !app_assoc.
Qed.

(** X9. [mint] and [mintWithSig] send nothing unless the instance has a
    signer, the metadata URI and the token URI begin with [https://] and the
    shares add up to one hundred percent; the rejection carries the message
    of the first of these checks that fails, in that order.  Once they pass,
    [mintWithSig] goes through to the contract with its arguments as
    given. *)
Theorem mint_checks_before_sending (w : World) (this : MotifItem.t)
    (creatorAddress : string) (itemData : ItemData) (bidShares : BidShares)
    (sig : EIP712Signature) :
  let checks := mintChecks this itemData bidShares in
  let direct := MotifItem.mint w this itemData bidShares in
  let signed :=
    MotifItem.mintWithSig w this creatorAddress itemData bidShares sig in
  (firstFailure checks = None
   <-> MotifItem.readOnly this = false
       /\ isHttps (metadataURI itemData) /\ isHttps (tokenURI itemData)
       /\ sumsTo100 bidShares)
  /\ (forall message,
        firstFailure checks = Some message ->
        rejectedUnsent direct message /\ rejectedUnsent signed message)
  /\ (firstFailure checks = None ->
      forwards w signed
        (Item_mintWithSig creatorAddress itemData bidShares sig)
      /\ forall log, exists sent, snd (direct log) = (log ++ sent)%list
                                  /\ sent <> []).
Proof.
  cbv zeta. split; [apply mintChecks_pass|].
  unfold MotifItem.mint, MotifItem.mintWithSig, rejectedUnsent, forwards.
  rewrite !mint_preflight, runChecks_firstFailure.
  destruct (firstFailure (mintChecks this itemData bidShares)) as [m|].
  - split; [|discriminate]. intros message [= <-]. split; reflexivity.
  - split; [discriminate|]. intros _. split.
    + intros log. unfold Async.bind, Async.lift, Async.ret, Async.call.
      now rewrite <- app_assoc.
    + intros log. unfold Async.bind, Async.lift, Async.ret, Async.call.
      destruct (w BigNumber.t _ _).
      * eexists. cbn [snd]. rewrite <- !app_assoc. split; [reflexivity|].
        discriminate.
      * eexists. cbn [snd]. rewrite <- !app_assoc. split; [reflexivity|].
        discriminate.
Qed.

Lemma padGas_bounds (gasEstimate : BigNumber.t) :
  0 <= gasEstimate ->
  gasEstimate <= MotifItem.padGas gasEstimate
  /\ 10 * MotifItem.padGas gasEstimate <= 11 * gasEstimate
  /\ 11 * gasEstimate < 10 * (MotifItem.padGas gasEstimate + 1).
Proof.
  intros H. unfold MotifItem.padGas.
  rewrite Z.quot_div_nonneg by lia.
  pose proof (Z.div_mod (gasEstimate * 110) 100 ltac:(lia)).
  pose proof (Z.mod_pos_bound (gasEstimate * 110) 100 ltac:(lia)).
  lia.
Qed.

(** X10. Once its checks have passed, [mint] asks the contract for a gas
    estimate and sends the transaction only after the estimate has resolved;
    if the estimate is rejected, so is [mint], and no transaction goes out.
    The gas limit of the transaction is the estimate plus a tenth, rounded
    down, written in decimal: never less than the estimate. *)
Theorem mint_pads_the_gas_estimate (w : World) (this : MotifItem.t)
    (itemData : ItemData) (bidShares : BidShares) :
  (firstFailure (mintChecks this itemData bidShares) = None ->
   estimatesThenSends w (MotifItem.mint w this itemData bidShares)
     (Item_estimateGas_mint itemData bidShares)
     (Item_mint itemData bidShares) MotifItem.padGas)
  /\ (forall gasEstimate,
        0 <= gasEstimate ->
        gasEstimate <= MotifItem.padGas gasEstimate
        /\ 10 * MotifItem.padGas gasEstimate <= 11 * gasEstimate
        /\ 11 * gasEstimate < 10 * (MotifItem.padGas gasEstimate + 1)).
Proof.
  split; [|apply padGas_bounds].
  intros Hpass. unfold MotifItem.mint.
  rewrite mint_preflight, runChecks_firstFailure, Hpass.
  intros log. cbv zeta.
  pose proof (estimatesThenSends_bind w
                (Item_estimateGas_mint itemData bidShares)
                (Item_mint itemData bidShares) MotifItem.padGas log) as H.
  cbv zeta in H. exact H.
Qed.

Lemma validateEach_ok_iff (itemData : list ItemData)
    (bidShares : list BidShares) (start : nat) :
  MotifItem.validateEach itemData bidShares start = Ok tt
  <-> forall index item,
        nth_error itemData index = Some item ->
        isHttps (metadataURI item) /\ isHttps (tokenURI item)
        /\ exists shares,
             nth_error bidShares (start + index) = Some shares
             /\ sumsTo100 shares.
Proof.
  revert start. induction itemData as [|item rest IH]; intros start.
  - cbn [MotifItem.validateEach]. split; [|reflexivity].
    intros _ [|index] other; discriminate.
  - cbn [MotifItem.validateEach]. split.
    + intros H.
      destruct (Utils.validateURI (metadataURI item)) as [[]|] eqn:Hm;
        [|discriminate].
      destruct (Utils.validateURI (tokenURI item)) as [[]|] eqn:Ht;
        [|discriminate].
      cbn [bindR] in H.
      destruct (nth_error bidShares start) as [shares|] eqn:Hs;
        [|discriminate].
      destruct (Utils.validateBidShares _ _ _) as [[]|] eqn:Hv;
        [|discriminate].
      cbn [bindR] in H. pose proof (proj1 (IH (S start)) H) as H'.
      intros [|index] other Hi.
      * injection Hi as <-. rewrite Nat.add_0_r.
        split; [now apply validateURI_ok_iff|].
        split; [now apply validateURI_ok_iff|].
        exists shares. split; [exact Hs | now apply validateBidShares_ok_iff].
      * cbn [nth_error] in Hi. destruct (H' index other Hi) as (A & B & C).
        split; [exact A|]. split; [exact B|].
        now rewrite Nat.add_succ_r.
    + intros H.
      destruct (H 0%nat item eq_refl) as (A & B & shares & Hs & C).
      apply validateURI_ok_iff in A, B. rewrite A, B. cbn [bindR].
      rewrite Nat.add_0_r in Hs. rewrite Hs.
      apply validateBidShares_ok_iff in C. rewrite C. cbn [bindR].
      apply (proj2 (IH (S start))). intros index other Hi.
      destruct (H (S index) other Hi) as (A' & B' & C').
      split; [exact A'|]. split; [exact B'|].
      now rewrite Nat.add_succ_r in C'.
Qed.

Lemma eachItemValid_extra (itemData : list ItemData)
    (bidShares extra : list BidShares) :
  eachItemValid itemData bidShares ->
  eachItemValid itemData (bidShares ++ extra).
Proof.
  intros H index item Hi. destruct (H index item Hi) as (A & B & s & Hs & C).
  split; [exact A|]. split; [exact B|]. exists s. split; [|exact C].
  rewrite nth_error_app1; [exact Hs|].
  apply nth_error_Some. congruence.
Qed.

Lemma mintMultiple_preflight (this : MotifItem.t)
    (itemData : list ItemData) (bidShares : list BidShares) :
  (MotifItem.ensureNotReadOnly this ;;
   MotifItem.validateEach itemData bidShares 0)%result = Ok tt
  <-> MotifItem.readOnly this = false /\ eachItemValid itemData bidShares.
Proof.
  unfold eachItemValid.
  rewrite <- ensureNotReadOnly_ok_iff.
  rewrite <- (validateEach_ok_iff itemData bidShares 0).
  destruct (MotifItem.ensureNotReadOnly this) as [[]|]; cbn [bindR].
  - tauto.
  - split; [discriminate | intros [? _]; discriminate].
Qed.

(** X11. [mintMultiple] pairs the item at each index with the shares at the
    same index.  Unless the instance has a signer and every item has
    [https://] URIs and shares that add up to one hundred percent, it is
    rejected before anything is sent; so it is when there are fewer shares
    than items.  Shares beyond the last item are never examined: with them
    the whole batch is estimated and sent as given, the gas limit being the
    padded estimate. *)
Theorem mintMultiple_checks_items_with_their_shares (w : World)
    (this : MotifItem.t) (itemData : list ItemData)
    (bidShares : list BidShares) :
  let valid :=
    MotifItem.readOnly this = false /\ eachItemValid itemData bidShares in
  (~ valid ->
   exists message,
     rejectedUnsent (MotifItem.mintMultiple w this itemData bidShares) message)
  /\ ((List.length bidShares < List.length itemData)%nat -> ~ valid)
  /\ (valid ->
      forall extra,
        estimatesThenSends w
          (MotifItem.mintMultiple w this itemData (bidShares ++ extra))
          (Item_estimateGas_mintMultiple itemData (bidShares ++ extra))
          (Item_mintMultiple itemData (bidShares ++ extra))
          MotifItem.padGas).
Proof.
  cbv zeta. split; [|split].
  - intros Hnot. unfold MotifItem.mintMultiple, rejectedUnsent.
    pose proof (mintMultiple_preflight this itemData bidShares) as Hpre.
    destruct (MotifItem.ensureNotReadOnly this ;;
              MotifItem.validateEach itemData bidShares 0)%result
      as [[]|message].
    + destruct Hnot. now apply Hpre.
    + exists message. reflexivity.
  - intros Hlen [_ Hvalid].
    destruct (nth_error itemData (List.length bidShares)) as [item|] eqn:Hi.
    + destruct (Hvalid _ _ Hi) as (_ & _ & s & Hs & _).
      apply nth_error_Some in Hlen.
      assert (nth_error bidShares (List.length bidShares) <> None)
        by congruence.
      apply nth_error_Some in H. lia.
    + apply nth_error_None in Hi. lia.
  - intros [Hrw Hvalid] extra.
    assert (Hpre : (MotifItem.ensureNotReadOnly this ;;
                    MotifItem.validateEach itemData (bidShares ++ extra) 0)%result
                   = Ok tt).
    { apply mintMultiple_preflight. split; [exact Hrw|].
      now apply eachItemValid_extra. }
    unfold MotifItem.mintMultiple. rewrite Hpre.
    intros log. cbv zeta.
    pose proof (estimatesThenSends_bind w
                  (Item_estimateGas_mintMultiple itemData (bidShares ++ extra))
                  (Item_mintMultiple itemData (bidShares ++ extra))
                  MotifItem.padGas log) as H.
    cbv zeta in H. exact H.
Qed.

(** ** Instances with a signer *)

Lemma guard_passes (this : MotifItem.t) :
  MotifItem.readOnly this = false -> MotifItem.ensureNotReadOnly this = Ok tt.
Proof. apply ensureNotReadOnly_ok_iff. Qed.

Lemma forwards_call (w : World) {R} (c : Call R) :
  forwards w (Async.ret tt ;; Async.call w c)%async c.
Proof.
  intros log. unfold Async.bind, Async.ret, Async.call.
  now rewrite <- app_assoc.
Qed.

Lemma forwardsHttps_checked (w : World) {R} (c : Call R) (uri : string) :
  forwardsHttps w (Async.lift (Utils.validateURI uri) ;; Async.call w c)%async
    c uri.
Proof.
  split.
  - intros H. apply validateURI_ok_iff in H. rewrite H. apply forwards_call.
  - intros H. destruct (validateURI_cases uri) as [E|E].
    + apply validateURI_ok_iff in E. now destruct H.
    + rewrite E. intros log. reflexivity.
Qed.

Lemma writesForwarded_writable (w : World) (this : MotifItem.t) :
  MotifItem.readOnly this = false -> writesForwarded w this.
Proof.
  intros H. apply guard_passes in H. unfold writesForwarded.
  split; [|split].
  - intros. unfold MotifItem.updateContentURI. rewrite H. cbn [bindR].
    apply forwardsHttps_checked.
  - intros. unfold MotifItem.updateMetadataURI. rewrite H. cbn [bindR].
    apply forwardsHttps_checked.
  - repeat split; intros;
      unfold MotifItem.setAsk, MotifItem.setBid, MotifItem.removeAsk,
        MotifItem.removeBid, MotifItem.acceptBid, MotifItem.permit,
        MotifItem.revokeApproval, MotifItem.burn, MotifItem.approve,
        MotifItem.setApprovalForAll, MotifItem.transferFrom,
        MotifItem.safeTransferFrom;
      rewrite H; apply forwards_call.
Qed.

(** X12. An instance constructed from a signer is not read-only.  Its
    state-changing methods that take no gas estimate send exactly one call,
    with the arguments as given, and settle as that call does;
    [updateContentURI] and [updateMetadataURI] do so only for a URI that
    begins with [https://], and are otherwise rejected with the message of
    [validateURI] before anything is sent. *)
Theorem signer_instance_forwards_writes
    (getAddress : string -> Result string)
    (addresses : string -> option MotifItem.Deployment)
    (w : World) (address : string) (chainId : Z)
    (itemAddress itemExchangeAddress : option string) (this : MotifItem.t) :
  MotifItem.new getAddress addresses (MotifItem.ASigner address) chainId
    itemAddress itemExchangeAddress = Ok this ->
  MotifItem.readOnly this = false /\ writesForwarded w this.
Proof.
  intros Hnew. apply new_readOnly in Hnew as [Hrw _].
  cbn [MotifItem.Signer_isSigner negb] in Hrw.
  split; [exact Hrw | now apply writesForwarded_writable].
Qed.

Lemma signer_instance_forwards_writes_witness :
  MotifItem.readOnly signerInstance = false
  /\ writesForwarded unreachableWorld signerInstance.
Proof.
  apply (signer_instance_forwards_writes
           (fun address => Ok address) (fun _ => None) unreachableWorld
           "0x9b2055d370f73ec7d8a03e965129118dc8f5bf83" 50
           (Some "0x1D7022f5B17d2F8B695918FB48fa1089C9f85401")
           (Some "0x1dC4c1cEFEF38a777b15aA20260a54E584b16C48")).
  reflexivity.
Defined.

(** ** The EIP-712 domain *)

(** X14. The EIP-712 domain of an instance names the item contract as the
    verifying contract and carries the instance's chain id, except that
    chain id 50 is reported as 1.  So two instances on the same item
    contract have the same domain exactly when their chain ids are equal or
    are 50 and 1. *)
Theorem eip712Domain_merges_chain_50_into_1 (this other : MotifItem.t) :
  verifyingContract (MotifItem.eip712Domain this) = MotifItem.itemAddress this
  /\ (MotifItem.chainId this <> 50 ->
      domain_chainId (MotifItem.eip712Domain this) = MotifItem.chainId this)
  /\ (MotifItem.chainId this = 50 ->
      domain_chainId (MotifItem.eip712Domain this) = 1)
  /\ (MotifItem.itemAddress this = MotifItem.itemAddress other ->
      (MotifItem.eip712Domain this = MotifItem.eip712Domain other
       <-> MotifItem.chainId this = MotifItem.chainId other
           \/ (MotifItem.chainId this = 50 /\ MotifItem.chainId other = 1)
           \/ (MotifItem.chainId this = 1 /\ MotifItem.chainId other = 50))).
Proof.
  unfold MotifItem.eip712Domain.
  cbn [verifyingContract domain_chainId].
  split; [reflexivity|]. split; [|split].
  - intros H. now destruct (Z.eqb_spec (MotifItem.chainId this) 50).
  - now intros ->.
  - intros ->.
    destruct (Z.eqb_spec (MotifItem.chainId this) 50) as [E1|E1],
      (Z.eqb_spec (MotifItem.chainId other) 50) as [E2|E2]; split.
    + intros _. left. congruence.
    + reflexivity.
    + intros [= H]. right. left. now split.
    + intros [H|[[_ H]|[H _]]]; [congruence | now rewrite H | congruence].
    + intros [= H]. right. right. now split.
    + intros [H|[[H _]|[H _]]]; [congruence | congruence | now rewrite H].
    + intros [= H]. now left.
    + intros [H|[[H _]|[_ H]]]; [now rewrite H | congruence | congruence].
Qed.

(** ** [Promise.all] and [isVerifiedItem] *)

Lemma insertByTime_perm (settleTime : nat -> nat) (i : nat)
    (order : list nat) :
  Permutation (PromiseAll.insertByTime settleTime i order) (i :: order).
Proof.
  induction order as [|j rest IH]; cbn [PromiseAll.insertByTime].
  - apply Permutation_refl.
  - destruct (settleTime i <=? settleTime j)%nat.
    + apply Permutation_refl.
    + eapply Permutation_trans; [apply perm_skip, IH | apply perm_swap].
Qed.

Lemma settleOrder_perm (settleTime : nat -> nat) (n : nat) :
  Permutation (PromiseAll.settleOrder settleTime n) (seq 0 n).
Proof.
  unfold PromiseAll.settleOrder. generalize 0%nat.
  induction n as [|n IH]; intros start; cbn [seq fold_right].
  - apply Permutation_refl.
  - eapply Permutation_trans; [apply insertByTime_perm|].
    apply perm_skip, IH.
Qed.

Lemma responses_perm {R} (calls : list (Call R)) (order order' : list nat) :
  Permutation order order' ->
  Permutation (responses calls order) (responses calls order').
Proof. intros H. unfold responses. now apply Permutation_flat_map. Qed.

(** Every call settles resolved, or the first to settle rejected decides. *)
Lemma settle_cases {R} (answer : Call R -> Promise R) (calls : list (Call R))
    (order : list nat) (log : list Event) :
  match PromiseAll.settle calls (map answer calls) order log with
  | (Some reason, log') =>
      exists c settled,
        In c calls /\ answer c = Rejected reason
        /\ log' = (log ++ settled)%list
        /\ incl settled (map (fun c => Response c) calls)
  | (None, log') =>
      (forall i c, In i order -> nth_error calls i = Some c ->
                   exists v, answer c = Resolved v)
      /\ log' = (log ++ responses calls order)%list
  end.
Proof.
  revert log. induction order as [|i rest IH]; intros log.
  - cbn [PromiseAll.settle responses flat_map]. split.
    + intros i c [].
    + now rewrite app_nil_r.
  - cbn [PromiseAll.settle]. rewrite nth_error_map.
    destruct (nth_error calls i) as [c|] eqn:Hc; cbn [option_map].
    + assert (Hin : In c calls) by (eapply nth_error_In; eassumption).
      destruct (answer c) as [v|reason] eqn:Ha.
      * specialize (IH (log ++ [Response c])%list).
        destruct (PromiseAll.settle calls (map answer calls) rest
                    (log ++ [Response c])%list) as [[reason|] log'].
        -- destruct IH as (c' & settled & Hin' & Hr & -> & Hincl).
           exists c', (Response c :: settled). split; [exact Hin'|].
           split; [exact Hr|]. split; [now rewrite <- app_assoc|].
           intros e [<-|He]; [|now apply Hincl].
           apply in_map_iff. now exists c.
        -- destruct IH as [Hall ->]. split.
           ++ intros j c' [<-|Hj] Hc'.
              ** rewrite Hc in Hc'. injection Hc' as <-. now exists v.
              ** now apply (Hall j).
           ++ unfold responses. cbn [flat_map]. rewrite Hc.
              now rewrite <- app_assoc.
      * exists c, [Response c]. split; [exact Hin|]. split; [exact Ha|].
        split; [reflexivity|].
        intros e [<-|[]]. apply in_map_iff. now exists c.
    + specialize (IH log).
      destruct (PromiseAll.settle calls (map answer calls) rest log)
        as [[reason|] log'].
      * exact IH.
      * destruct IH as [Hall ->]. split.
        -- intros j c' [<-|Hj] Hc'; [congruence | now apply (Hall j)].
        -- unfold responses. cbn [flat_map]. now rewrite Hc.
Qed.

Lemma values_resolved {R} (answer : Call R -> Promise R)
    (calls : list (Call R)) :
  (forall c, In c calls -> exists v, answer c = Resolved v) ->
  List.length (PromiseAll.values (map answer calls)) = List.length calls
  /\ forall i c, nth_error calls i = Some c ->
       answer c = match nth_error (PromiseAll.values (map answer calls)) i with
                  | Some v => Resolved v
                  | None => Rejected ""
                  end.
Proof.
  induction calls as [|c rest IH]; intros H.
  - split; [reflexivity|]. intros [|i] c; discriminate.
  - cbn [map PromiseAll.values].
    destruct (H c (or_introl eq_refl)) as [v Hv]. rewrite Hv.
    destruct IH as [Hlen Hnth]; [intros c' Hc'; apply H; now right|].
    split; [cbn [List.length]; now rewrite Hlen|].
    intros [|i] c' Hc'; cbn [nth_error] in *.
    + injection Hc' as <-. exact Hv.
    + now apply Hnth.
Qed.

(** The batch as a whole: rejected by one of its calls before the rest of
    the function runs, or resolved to the values in index order once every
    call has settled. *)
Lemma all_cases {R} (settleTime : nat -> nat) (w : World)
    (calls : list (Call R)) (log : list Event) :
  let sent := (log ++ map (fun c => Request c) calls)%list in
  match PromiseAll.all settleTime w calls log with
  | (Rejected reason, log') =>
      exists c settled,
        In c calls /\ w R sent c = Rejected reason
        /\ log' = (sent ++ settled)%list
        /\ incl settled (map (fun c => Response c) calls)
  | (Resolved vs, log') =>
      vs = PromiseAll.values (map (fun c => w R sent c) calls)
      /\ (forall c, In c calls -> exists v, w R sent c = Resolved v)
      /\ exists settled,
           log' = (sent ++ settled)%list
           /\ Permutation settled (map (fun c => Response c) calls)
  end.
Proof.
  cbv zeta. unfold PromiseAll.all.
  pose proof (settle_cases
                (fun c => w R (log ++ map (fun c => Request c) calls)%list c)
                calls (PromiseAll.settleOrder settleTime (List.length calls))
                (log ++ map (fun c => Request c) calls)%list) as H.
  destruct (PromiseAll.settle _ _ _ _) as [[reason|] log'].
  - exact H.
  - destruct H as [Hall ->]. split; [reflexivity|]. split.
    + intros c Hc. apply In_nth_error in Hc as [i Hi].
      apply (Hall i c); [|exact Hi].
      eapply Permutation_in;
        [apply Permutation_sym, settleOrder_perm|].
      apply in_seq. split; [lia|]. cbn.
      apply nth_error_Some. congruence.
    + eexists. split; [reflexivity|].
      eapply Permutation_trans;
        [apply responses_perm, settleOrder_perm|].
      unfold responses. clear.
      enough (G : forall start prefix,
                 List.length prefix = start ->
                 Permutation
                   (flat_map
                      (fun i => match nth_error (prefix ++ calls) i with
                                | Some c => [Response c]
                                | None => []
                                end) (seq start (List.length calls)))
                   (map (fun c => Response c) calls))
        by (apply (G 0%nat []); reflexivity).
      induction calls as [|c rest IH]; intros start prefix Hp.
      * apply Permutation_refl.
      * cbn [List.length seq flat_map map].
        rewrite nth_error_app2 by lia. rewrite <- Hp, Nat.sub_diag.
        cbn [nth_error app]. apply perm_skip.
        specialize (IH (S (List.length prefix)) (prefix ++ [c])%list).
        rewrite <- app_assoc in IH. cbn [app] in IH.
        apply IH. rewrite length_app. cbn. lia.
Qed.

Lemma isVerifiedItem_unfold (w : World) (settleTime : nat -> nat)
    (itemId timeout : Z) (log : list Event) :
  MotifItem.isVerifiedItem w settleTime itemId timeout log
  = match PromiseAll.all settleTime w (verificationReads itemId) log with
    | (Resolved fetched, log') =>
        (itemData <-
           Async.lift
             (Utils.constructItemData (nth 0 fetched "undefined")
                (nth 1 fetched "undefined")
                (Bytes.Str (nth 2 fetched "undefined"))
                (Bytes.Str (nth 3 fetched "undefined"))) ;;
         Utils.isItemDataVerified w itemData timeout)%async log'
    | (Rejected reason, log') => (Rejected reason, log')
    end.
Proof. reflexivity. Qed.

(** X13. [isVerifiedItem] sends its four reads (token URI, metadata URI,
    content hash, metadata hash) together.  If one of them is rejected, so
    is the result, with the reason of a rejected read, and nothing but
    those reads has happened: no HTTP request was made.  If all four
    resolve, in whatever order, the result is that of [constructItemData]
    on the four values followed by [isItemDataVerified] on the record. *)
Theorem isVerifiedItem_reads_then_verifies (w : World)
    (settleTime : nat -> nat) (itemId timeout : Z) (log : list Event) :
  let reads := verificationReads itemId in
  let sent := (log ++ map (fun c => Request c) reads)%list in
  let run := MotifItem.isVerifiedItem w settleTime itemId timeout log in
  ((exists c reason, In c reads /\ w string sent c = Rejected reason) ->
   exists c reason settled,
     In c reads /\ w string sent c = Rejected reason
     /\ run = (Rejected reason, (sent ++ settled)%list)
     /\ incl settled (map (fun c => Response c) reads))
  /\ (forall uri1 uri2 hash1 hash2,
        w string sent (Item_tokenURI itemId) = Resolved uri1 ->
        w string sent (Item_tokenMetadataURI itemId) = Resolved uri2 ->
        w string sent (Item_tokenContentHashes itemId) = Resolved hash1 ->
        w string sent (Item_tokenMetadataHashes itemId) = Resolved hash2 ->
        exists settled,
          Permutation settled (map (fun c => Response c) reads)
          /\ run
             = (itemData <-
                  Async.lift
                    (Utils.constructItemData uri1 uri2 (Bytes.Str hash1)
                       (Bytes.Str hash2)) ;;
                Utils.isItemDataVerified w itemData timeout)%async
                 (sent ++ settled)%list).
Proof.
  cbv zeta. rewrite isVerifiedItem_unfold.
  pose proof (all_cases settleTime w (verificationReads itemId) log) as H.
  cbv zeta in H.
  destruct (PromiseAll.all settleTime w (verificationReads itemId) log)
    as [[fetched|reason] log'].
  - destruct H as (Hv & Hall & settled & -> & Hperm). split.
    + intros (c & reason & Hc & Hr).
      destruct (Hall c Hc) as [v Hv']. congruence.
    + intros uri1 uri2 hash1 hash2 H1 H2 H3 H4.
      exists settled. split; [exact Hperm|].
      unfold verificationReads in Hv. cbn [map] in Hv.
      unfold verificationReads in H1, H2, H3, H4. cbn [map] in H1, H2, H3, H4.
      rewrite H1, H2, H3, H4 in Hv. cbn [PromiseAll.values] in Hv.
      subst fetched. reflexivity.
  - destruct H as (c & settled & Hc & Hr & -> & Hincl). split.
    + intros _. exists c, reason, settled.
      split; [exact Hc|]. split; [exact Hr|]. split; [reflexivity|exact Hincl].
    + intros uri1 uri2 hash1 hash2 H1 H2 H3 H4.
      unfold verificationReads in Hc, Hr. cbn [map] in Hr.
      unfold verificationReads in H1, H2, H3, H4. cbn [map] in H1, H2, H3, H4.
      destruct Hc as [<-|[<-|[<-|[<-|[]]]]]; congruence.
Qed.

(** ** Bids against the exchange *)

(** X15. [isValidBid] first asks the exchange whether the amount can be
    split and waits for the answer; only when that has resolved does it read
    the current bid shares, and it reads them even when the amount was
    found invalid.  A rejection of either call rejects the result.
    [isValidAsk] is the amount check alone. *)
Theorem isValidBid_asks_amount_then_shares (w : World) (itemId : Z)
    (bid : Bid) (ask : Ask) (log : list Event) :
  let check := Exchange_isValidBid itemId (amount bid) in
  let read := Exchange_bidSharesForToken itemId in
  let asked := (log ++ [Request check])%list in
  let answered := (asked ++ [Response check; Request read])%list in
  let run := MotifItem.isValidBid w itemId bid log in
  (forall reason,
     w bool asked check = Rejected reason ->
     run = (Rejected reason, (asked ++ [Response check])%list))
  /\ (forall isAmountValid reason,
        w bool asked check = Resolved isAmountValid ->
        w BidShares answered read = Rejected reason ->
        run = (Rejected reason, (answered ++ [Response read])%list))
  /\ (forall isAmountValid currentBidShares,
        w bool asked check = Resolved isAmountValid ->
        w BidShares answered read = Resolved currentBidShares ->
        snd run = (answered ++ [Response read])%list
        /\ (isAmountValid = false -> fst run = Resolved false))
  /\ forwards w (MotifItem.isValidAsk w itemId ask)
       (Exchange_isValidBid itemId (ask_amount ask)).
Proof.
  cbv zeta. rewrite isValidBid_unfold. cbv zeta.
  split; [|split; [|split]].
  - intros reason ->. reflexivity.
  - intros isAmountValid reason -> Hr.
    rewrite <- !app_assoc in *. cbn [app] in *. now rewrite Hr.
  - intros isAmountValid currentBidShares -> Hr.
    rewrite <- !app_assoc in *. cbn [app] in *. rewrite Hr. cbn [fst snd].
    split; [reflexivity|]. now intros ->.
  - intros log'. unfold MotifItem.isValidAsk, Async.call.
    now rewrite <- app_assoc.
Qed.
